(** * ConversationHandler: routing and state commit

    A shallow embedding of [telegram/ext/conversationhandler.py]: the
    [ConversationHandler] class with its constructor, [check_update]
    (identity extraction, state resolution, handler selection) and
    [handle_update] (commit of the handler's outcome into the
    conversation store), followed by the properties the specification
    states about them. *)

From stdpp Require Import base numbers option list strings countable gmap.

Local Open Scope Z_scope.

(** ** Python values *)

(** Exceptions that can leave the two methods. [AttributeError] and
    [KeyError] are raised by the interpreter itself (attribute access on
    [None], [del d[k]] on a missing key); [CollaboratorError] stands for
    anything raised inside an external collaborator and propagated. *)
Inductive exn : Type :=
| AttributeError
| KeyError
| CollaboratorError (what : string).

(** The result of evaluating a Python call: a value or a raised exception. *)
Inductive res (A : Type) : Type :=
| Ok (a : A)
| Raise (e : exn).
Arguments Ok {A} a.
Arguments Raise {A} e.
Scheme All for res.

(** State values as they occur at run time: [None], integers, strings and
    [Promise] objects.

    Modelled from the spec: [telegram.utils.promise.Promise] is imported
    but not defined in this file.  A Pending Result is a handle (here an
    object identity [ident]) to an outcome not yet computed; resolving it
    gives the completed value, or surfaces the failure of the underlying
    computation to the caller. *)
Inductive value : Type :=
| VNone
| VInt (n : Z)
| VStr (s : string)
| VPromise (ident : nat) (settled : res value).

(** [state.result()]: defined on a [Promise] only. *)
Definition result (state : value) : res value :=
  match state with
  | VPromise _ settled => settled
  | _ => Raise AttributeError
  end.

(** [a == b].  Integers and strings compare by value, [None] equals only
    [None], and a [Promise] (which defines no [__eq__]) equals only itself. *)
Definition py_eq (a b : value) : bool :=
  match a, b with
  | VNone, VNone => true
  | VInt x, VInt y => bool_decide (x = y)
  | VStr x, VStr y => bool_decide (x = y)
  | VPromise i _, VPromise j _ => bool_decide (i = j)
  | _, _ => false
  end.

(** [v is None] *)
Definition is_None (v : value) : bool :=
  match v with VNone => true | _ => false end.

(** [isinstance(v, Promise)] *)
Definition is_Promise (v : value) : bool :=
  match v with VPromise _ _ => true | _ => false end.

(** Nesting depth of promises inside a value. *)
Fixpoint promise_depth (v : value) : nat :=
  match v with
  | VPromise _ (Ok w) => S (promise_depth w)
  | VPromise _ (Raise _) => 1%nat
  | _ => 0%nat
  end.

(** ** The update model

    Modelled from the spec: the [telegram] package ([Update], [Message],
    [User], [Chat], ...) is imported but not part of this file.  Only the
    fields [check_update] reads are kept, with the optionality the Bot API
    gives them: a message always has a chat but its sender may be absent,
    queries always have a sender, and a callback query may lack its
    originating message. *)
Record User := mkUser { user_id : Z }.
Record Chat := mkChat { chat_id : Z }.
Record Message := mkMessage { from_user : option User; chat : Chat }.
Record InlineQuery := mkInlineQuery { iq_from_user : User }.
Record ChosenInlineResult := mkChosenInlineResult { cir_from_user : User }.
Record CallbackQuery :=
  mkCallbackQuery { cq_from_user : User; cq_message : option Message }.

Record Update := mkUpdate {
  message : option Message;
  edited_message : option Message;
  inline_query : option InlineQuery;
  chosen_inline_result : option ChosenInlineResult;
  callback_query : option CallbackQuery
}.

(** What a caller may pass as [update]: an [Update] or any other object. *)
Inductive PyObject : Type :=
| NotAnUpdate (repr : string)
| AnUpdate (upd : Update).

(** The external dispatch engine, passed through to the selected handler. *)
Inductive Dispatcher : Type := dispatcher_ref (ident : nat).

(** Modelled from the spec: [telegram.ext.Handler], the interface of the
    handlers held in the three collections.  [check_update] is the
    side-effect-free acceptance test, [handle_update] performs the step
    and reports its outcome (or raises). *)
Module Handler.
Record t := make {
  check_update : Update → bool;
  handle_update : Update → Dispatcher → res value
}.
End Handler.

(** Keys of [self.conversations] and values of [self.current_conversation]:
    [None] (the constructor's initial value) or a tuple [(chat.id, user.id)]
    whose first component is [None] when there is no chat. *)
Inductive Key : Type :=
| KNone
| KTuple (chat_id : option Z) (user_id : Z).

Global Instance Key_eq_dec : EqDecision Key.
Proof. solve_decision. Defined.

Global Instance Key_countable : Countable Key.
Proof.
  refine (inj_countable'
            (λ k, match k with KNone => None | KTuple c u => Some (c, u) end)
            (λ o, match o with None => KNone | Some (c, u) => KTuple c u end) _).
  by intros [].
Defined.

(** ** The class *)

Record ConversationHandler := mkConversationHandler {
  entry_points : list Handler.t;
  states : list (value * list Handler.t);
  fallbacks : list Handler.t;
  allow_reentry : bool;
  conversations : gmap Key value;
  current_conversation : Key;
  current_handler : option Handler.t
}.

(** [END = -1] *)
Definition END : value := VInt (-1).

(** [__init__(self, entry_points, states, fallbacks, allow_reentry=False)] *)
Definition __init__ (entry_points : list Handler.t)
    (states : list (value * list Handler.t))
    (fallbacks : list Handler.t) (allow_reentry : bool) : ConversationHandler :=
  {| entry_points := entry_points;
     states := states;
     fallbacks := fallbacks;
     allow_reentry := allow_reentry;
     conversations := ∅;
     current_conversation := KNone;
     current_handler := None |}.

(** [d.get(k)] on the [states] dict, kept as an association list. *)
Fixpoint dict_get (d : list (value * list Handler.t)) (k : value)
  : option (list Handler.t) :=
  match d with
  | [] => None
  | (k', hs) :: d' => if py_eq k' k then Some hs else dict_get d' k
  end.

(** ** Observable effects and the evaluation monad *)

(** Which of the three scans called a handler's [check_update]. *)
Inductive Origin : Type := EntryPoint | StateHandler | Fallback.

(** What a method does besides returning: the two [logger.debug] records
    and every call of a collaborator's [check_update]. *)
Inductive event : Type :=
| DebugWaiting
| DebugSelecting (key : Key) (state : value)
| Consulted (origin : Origin) (handler : Handler.t).

(** How a block of statements ends: it falls through with a value, executes
    [return], or raises. *)
Inductive completion (R A : Type) : Type :=
| Normal (a : A)
| Return (r : R)
| Raised (e : exn).
Arguments Normal {R A} a.
Arguments Return {R A} r.
Arguments Raised {R A} e.

Record Run (O : Type) := mkRun {
  outcome : O;
  after : ConversationHandler;
  emitted : list event
}.
Arguments mkRun {O} outcome after emitted.
Arguments outcome {O} r.
Arguments after {O} r.
Arguments emitted {O} r.

(** Statements of a method body with return type [R] producing an [A]:
    they read and update [self] and emit events. *)
Definition M (R A : Type) : Type := ConversationHandler → Run (completion R A).

Definition ret {R A} (a : A) : M R A := λ self, mkRun (Normal a) self [].

Definition bind {R A B} (m : M R A) (k : A → M R B) : M R B :=
  λ self,
    let r := m self in
    match outcome r with
    | Normal a =>
        let r' := k a (after r) in
        mkRun (outcome r') (after r') (emitted r ++ emitted r')
    | Return v => mkRun (Return v) (after r) (emitted r)
    | Raised e => mkRun (Raised e) (after r) (emitted r)
    end.

Notation "x <- m ;; k" := (bind m (λ x, k))
  (at level 100, m at next level, right associativity).
Notation "m ;;; k" := (bind m (λ _, k))
  (at level 100, right associativity).

Definition return_ {R A} (v : R) : M R A := λ self, mkRun (Return v) self [].
Definition raise {R A} (e : exn) : M R A := λ self, mkRun (Raised e) self [].
Definition get_self {R} : M R ConversationHandler :=
  λ self, mkRun (Normal self) self [].
Definition put_self {R} (self' : ConversationHandler) : M R unit :=
  λ _, mkRun (Normal tt) self' [].
Definition emit {R} (e : event) : M R unit := λ self, mkRun (Normal tt) self [e].

(** An expression that evaluates to a value or raises. *)
Definition eval {R A} (r : res A) : M R A :=
  match r with Ok a => ret a | Raise e => raise e end.

(** A method call: [return v] and falling off the end both hand a result to
    the caller, an exception propagates. *)
Definition call {R} (body : M R R) (self : ConversationHandler) : Run (res R) :=
  let r := body self in
  mkRun (match outcome r with
         | Normal v | Return v => Ok v
         | Raised e => Raise e
         end) (after r) (emitted r).

(** [self] with the two selection attributes reassigned. *)
Definition with_selection (self : ConversationHandler) (key : Key)
    (handler : option Handler.t) : ConversationHandler :=
  {| entry_points := entry_points self;
     states := states self;
     fallbacks := fallbacks self;
     allow_reentry := allow_reentry self;
     conversations := conversations self;
     current_conversation := key;
     current_handler := handler |}.

(** [self] with the [conversations] dict replaced by its updated content. *)
Definition with_conversations (self : ConversationHandler)
    (store : gmap Key value) : ConversationHandler :=
  {| entry_points := entry_points self;
     states := states self;
     fallbacks := fallbacks self;
     allow_reentry := allow_reentry self;
     conversations := store;
     current_conversation := current_conversation self;
     current_handler := current_handler self |}.

(** ** [check_update] *)

(** Lines 88-110: the locals [user] and [chat] after the chain of tests on
    the update's fields; [None] when the final [else: return False] is
    reached. *)
Definition sender_and_chat (update : Update) : option (option User * option Chat) :=
  match message update with
  | Some m => Some (from_user m, Some (chat m))
  | None =>
  match edited_message update with
  | Some m => Some (from_user m, Some (chat m))
  | None =>
  match inline_query update with
  | Some q => Some (Some (iq_from_user q), None)
  | None =>
  match chosen_inline_result update with
  | Some c => Some (Some (cir_from_user c), None)
  | None =>
  match callback_query update with
  | Some q => Some (Some (cq_from_user q), chat <$> cq_message q)
  | None => None
  end end end end end.

(** [user.id] where [user] may be [None]. *)
Definition id_of_user (user : option User) : res Z :=
  match user with
  | Some u => Ok (user_id u)
  | None => Raise AttributeError
  end.

(** Line 112: [key = (chat.id, user.id) if chat else (None, user.id)] *)
Definition conversation_key (chat : option Chat) (user : option User) : res Key :=
  match chat with
  | Some c =>
      match id_of_user user with
      | Ok uid => Ok (KTuple (Some (chat_id c)) uid)
      | Raise e => Raise e
      end
  | None =>
      match id_of_user user with
      | Ok uid => Ok (KTuple None uid)
      | Raise e => Raise e
      end
  end.

(** [self.conversations.get(key)] *)
Definition conversations_get (self : ConversationHandler) (key : Key) : value :=
  default VNone (conversations self !! key).

(** A [for h in handlers: if h.check_update(update): handler = h; break]
    loop.  [Some h] is the handler at which the loop broke, [None] means
    the loop ran to its end, which is when a [for ... else] clause runs. *)
Fixpoint for_break {R} (origin : Origin) (update : Update)
    (handlers : list Handler.t) : M R (option Handler.t) :=
  match handlers with
  | [] => ret None
  | h :: rest =>
      emit (Consulted origin h) ;;;
      if Handler.check_update h update then ret (Some h)
      else for_break origin update rest
  end.

(** Truth value of the local [handler]: [None] or a handler object. *)
Definition truthy (handler : option Handler.t) : bool :=
  match handler with Some _ => true | None => false end.

(** Lines 123-132: the entry points, scanned when there is no state or
    reentry is allowed.  The result is the local [handler]. *)
Definition entry_block (state : value) (update : Update)
  : M bool (option Handler.t) :=
  self <- get_self ;;
  if is_None state || allow_reentry self then
    found <- for_break EntryPoint update (entry_points self) ;;
    match found with
    | Some entry_point => ret (Some entry_point)
    | None => if is_None state then return_ false else ret None
    end
  else ret None.

(** Lines 134-151: the handlers of the current state, then the fallbacks,
    scanned when there is a state and no handler was found yet. *)
Definition state_block (state : value) (handler : option Handler.t)
    (update : Update) : M bool (option Handler.t) :=
  self <- get_self ;;
  if negb (is_None state) && negb (truthy handler) then
    let handlers := dict_get (states self) state in
    found <- for_break StateHandler update (default [] handlers) ;;
    match found with
    | Some candidate => ret (Some candidate)
    | None =>
        found <- for_break Fallback update (fallbacks self) ;;
        match found with
        | Some fallback => ret (Some fallback)
        | None => return_ false
        end
    end
  else ret handler.

(** Lines 153-157: the selection is saved for [handle_update]. *)
Definition save_selection (key : Key) (handler : option Handler.t) : M bool bool :=
  self <- get_self ;;
  put_self (with_selection self key handler) ;;;
  return_ true.

(** Lines 121-157: selection among entry points, the handlers of the
    current state and the fallbacks, then the recording of the choice. *)
Definition select_and_record (key : Key) (state : value) (update : Update)
  : M bool bool :=
  handler <- entry_block state update ;;
  handler <- state_block state handler update ;;
  save_selection key handler.

(** Lines 113-119: the stored state, resolved when it is a [Promise]. *)
Definition resolve_state (key : Key) : M bool value :=
  self <- get_self ;;
  let state := conversations_get self key in
  state <-
    (if is_Promise state then
       emit DebugWaiting ;;;
       eval (result state)
     else ret state) ;;
  emit (DebugSelecting key state) ;;;
  ret state.

(** Lines 83-157: the body of [check_update(self, update)]. *)
Definition check_update_body (update : PyObject) : M bool bool :=
  match update with
  | NotAnUpdate _ => return_ false
  | AnUpdate update =>
      match sender_and_chat update with
      | None => return_ false
      | Some (user, chat) =>
          key <- eval (conversation_key chat user) ;;
          state <- resolve_state key ;;
          select_and_record key state update
      end
  end.

Definition check_update (self : ConversationHandler) (update : PyObject)
  : Run (res bool) :=
  call (check_update_body update) self.

(** ** [handle_update] *)

(** [del self.conversations[key]] *)
Definition del_conversation {R} (key : Key) : M R unit :=
  self <- get_self ;;
  match conversations self !! key with
  | None => raise KeyError
  | Some _ => put_self (with_conversations self (delete key (conversations self)))
  end.

(** [self.conversations[key] = new_state] *)
Definition set_conversation {R} (key : Key) (new_state : value) : M R unit :=
  self <- get_self ;;
  put_self (with_conversations self (<[key := new_state]> (conversations self))).

(** [self.current_handler.handle_update(update, dispatcher)], where
    [self.current_handler] may still be [None]. *)
Definition call_current_handler {R} (update : Update) (dispatcher : Dispatcher)
  : M R value :=
  self <- get_self ;;
  match current_handler self with
  | None => raise AttributeError
  | Some h => eval (Handler.handle_update h update dispatcher)
  end.

(** Lines 159-166: the body of [handle_update(self, update, dispatcher)]. *)
Definition handle_update_body (update : Update) (dispatcher : Dispatcher)
  : M unit unit :=
  new_state <- call_current_handler update dispatcher ;;
  self <- get_self ;;
  if py_eq new_state END then
    del_conversation (current_conversation self)
  else if negb (is_None new_state) then
    set_conversation (current_conversation self) new_state
  else ret tt.

Definition handle_update (self : ConversationHandler) (update : Update)
    (dispatcher : Dispatcher) : Run (res unit) :=
  call (handle_update_body update dispatcher) self.

(** ** Derived notions used to state the properties *)

(** Identity extraction (lines 88-112): [None] when the update has none of
    the recognised shapes, otherwise the key or the exception raised while
    building it. *)
Definition identity (update : Update) : option (res Key) :=
  match sender_and_chat update with
  | None => None
  | Some (user, chat) => Some (conversation_key chat user)
  end.

(** The state [check_update] selects with (lines 113-117): the stored
    value, or its result when it is a [Promise]. *)
Definition current_state (self : ConversationHandler) (key : Key) : res value :=
  let state := conversations_get self key in
  if is_Promise state then result state else Ok state.

(** The collaborator calls recorded in a log, in order. *)
Fixpoint consulted (log : list event) : list (Origin * Handler.t) :=
  match log with
  | [] => []
  | Consulted o h :: log' => (o, h) :: consulted log'
  | _ :: log' => consulted log'
  end.

(** The [logger.debug('waiting for promise...')] record, emitted exactly
    when the stored value is a [Promise]. *)
Definition waiting_log (self : ConversationHandler) (key : Key) : list event :=
  if is_Promise (conversations_get self key) then [DebugWaiting] else [].

(** The calls a full scan of [handlers] makes. *)
Definition scan (origin : Origin) (handlers : list Handler.t)
  : list (Origin * Handler.t) :=
  (λ h, (origin, h)) <$> handlers.

Definition rejects (update : Update) (h : Handler.t) : Prop :=
  Handler.check_update h update = false.

Definition accepts (update : Update) (h : Handler.t) : Prop :=
  Handler.check_update h update = true.

(** [h] is the first handler of [handlers] that accepts [update], after the
    handlers [before] rejected it. *)
Definition first_acceptor (update : Update) (handlers before : list Handler.t)
    (h : Handler.t) : Prop :=
  (∃ rest, handlers = before ++ h :: rest) ∧
  Forall (rejects update) before ∧ accepts update h.

(** The entry-point calls of a run in which no entry point is taken: all
    of them under reentry, none otherwise (the state not being [None]). *)
Definition entry_scan (self : ConversationHandler) : list (Origin * Handler.t) :=
  if allow_reentry self then scan EntryPoint (entry_points self) else [].

(** The log of those calls. *)
Definition entry_log (self : ConversationHandler) : list event :=
  if allow_reentry self then Consulted EntryPoint <$> entry_points self else [].

(** [self.states.get(state) or []] *)
Definition state_handlers (self : ConversationHandler) (state : value)
  : list Handler.t :=
  default [] (dict_get (states self) state).

(** Calls made on an instance by the dispatch engine. *)
Inductive Call : Type :=
| CheckUpdate (update : PyObject)
| HandleUpdate (update : Update) (dispatcher : Dispatcher).

(** The instance after one call; an exception ends that call only. *)
Definition step (self : ConversationHandler) (c : Call) : ConversationHandler :=
  match c with
  | CheckUpdate update => after (check_update self update)
  | HandleUpdate update dispatcher => after (handle_update self update dispatcher)
  end.

(** The instance after a sequence of calls. *)
Definition run_calls (self : ConversationHandler) (calls : list Call)
  : ConversationHandler :=
  foldl step self calls.

(** No selection succeeded: no [check_update] among [calls], run in order
    from [self], returned [True]. *)
Fixpoint no_selection (self : ConversationHandler) (calls : list Call) : Prop :=
  match calls with
  | [] => True
  | c :: calls' =>
      match c with
      | CheckUpdate update => outcome (check_update self update) ≠ Ok true
      | HandleUpdate _ _ => True
      end ∧ no_selection (step self c) calls'
  end.

(** A selection for [update] succeeded: some [check_update(update)] among
    [calls], run in order from [self], returned [True]. *)
Fixpoint selection_for (self : ConversationHandler) (calls : list Call)
    (update : Update) : Prop :=
  match calls with
  | [] => False
  | c :: calls' =>
      (c = CheckUpdate (AnUpdate update)
       ∧ outcome (check_update self (AnUpdate update)) = Ok true)
      ∨ selection_for (step self c) calls' update
  end.

(** ** Fixtures: small handlers and updates for concrete runs *)

Module Fixtures.

(** A handler that accepts every update and reports [v]. *)
Definition always (v : value) : Handler.t :=
  Handler.make (λ _, true) (λ _ _, Ok v).

(** A handler that accepts no update. *)
Definition never (v : value) : Handler.t :=
  Handler.make (λ _, false) (λ _ _, Ok v).

(** A handler that accepts exactly the updates carrying a message. *)
Definition on_message (v : value) : Handler.t :=
  Handler.make (λ u, bool_decide (is_Some (message u))) (λ _ _, Ok v).

(** A handler that accepts the updates carrying a message and reports
    [v] for them, [w] for any other update it is made to handle. *)
Definition on_message_else (v w : value) : Handler.t :=
  Handler.make (λ u, bool_decide (is_Some (message u)))
               (λ u _, Ok (if bool_decide (is_Some (message u)) then v else w)).

Definition no_update : Update := mkUpdate None None None None None.

(** A message from user 7 in chat 3. *)
Definition text_update : Update :=
  mkUpdate (Some (mkMessage (Some (mkUser 7)) (mkChat 3))) None None None None.

(** An inline query from user 7. *)
Definition query_update : Update :=
  mkUpdate None None (Some (mkInlineQuery (mkUser 7))) None None.

(** A message without sender, as posted in a channel. *)
Definition channel_update : Update :=
  mkUpdate (Some (mkMessage None (mkChat 3))) None None None None.

Definition engine : Dispatcher := dispatcher_ref 0.

(** The identities of [text_update] and [query_update]. *)
Definition in_chat : Key := KTuple (Some 3) 7.
Definition no_chat : Key := KTuple None 7.

Definition AWAITING_NAME : value := VStr "AWAITING_NAME".
Definition AWAITING_AGE : value := VStr "AWAITING_AGE".

(** A fresh instance whose only entry point ends the conversation. *)
Definition ending : ConversationHandler :=
  __init__ [always END] [] [] false.

(** A fresh instance whose entry point reports a state that depends on
    the update it handles, and the calls made on it: one update is
    checked and handled. *)
Definition starting : ConversationHandler :=
  __init__ [on_message_else AWAITING_NAME AWAITING_AGE] [] [] false.

Definition started : list Call :=
  [CheckUpdate (AnUpdate text_update); HandleUpdate text_update engine].

(** Calls in which no selection succeeds. *)
Definition unsuccessful : list Call :=
  [CheckUpdate (AnUpdate no_update); HandleUpdate text_update engine;
   CheckUpdate (NotAnUpdate "None"); CheckUpdate (AnUpdate query_update)].

(** An instance in the middle of two conversations, both waiting for a
    name; [fbs] are its fallbacks. *)
Definition talking (reentry : bool) (fbs : list Handler.t) : ConversationHandler :=
  {| entry_points := [never VNone; on_message AWAITING_NAME];
     states := [(AWAITING_NAME, [never VNone; always AWAITING_AGE]);
                (AWAITING_AGE, [never VNone])];
     fallbacks := fbs;
     allow_reentry := reentry;
     conversations := {[ in_chat := AWAITING_NAME; no_chat := AWAITING_NAME ]};
     current_conversation := KNone;
     current_handler := None |}.

(** The same with the conversation in the chat waiting for an age. *)
Definition aging (fbs : list Handler.t) : ConversationHandler :=
  with_conversations (talking false fbs)
    {[ in_chat := AWAITING_AGE; no_chat := AWAITING_NAME ]}.

(** An instance whose stored state in the chat is a completed promise. *)
Definition pending : ConversationHandler :=
  with_conversations (talking false [always END])
    {[ in_chat := VPromise 1 (Ok AWAITING_NAME) ]}.

(** An instance on which a handler that changes nothing was selected. *)
Definition selected : ConversationHandler :=
  with_selection (talking false []) in_chat (Some (always VNone)).

End Fixtures.

(** ** Notions for the properties of whole runs *)

(** The handlers a selection with resolved state [state] may call, in the
    order in which lines 124-151 reach them: the entry points when there is
    no state or reentry is allowed, then, when there is a state, its
    handlers followed by the fallbacks. *)
Definition candidates (self : ConversationHandler) (state : value)
  : list Handler.t :=
  (if is_None state || allow_reentry self then entry_points self else [])
  ++ (if is_None state then [] else state_handlers self state ++ fallbacks self).

(** The first handler of a list that accepts the update, if any. *)
Definition first_accepting (update : Update) (handlers : list Handler.t)
  : option Handler.t :=
  find (λ h, Handler.check_update h update) handlers.

(** The constructor arguments of two instances are the same. *)
Definition same_configuration (self self' : ConversationHandler) : Prop :=
  entry_points self' = entry_points self
  ∧ states self' = states self
  ∧ fallbacks self' = fallbacks self
  ∧ allow_reentry self' = allow_reentry self.

(** The store holds active states only: no entry under the key [None], and
    no entry whose value is [None] or equals [END]. *)
Definition active_states_only (self : ConversationHandler) : Prop :=
  conversations self !! KNone = None
  ∧ ∀ key v, conversations self !! key = Some v →
             is_None v = false ∧ py_eq v END = false.

(** A recorded handler comes with a recorded tuple key. *)
Definition selection_has_key (self : ConversationHandler) : Prop :=
  current_handler self ≠ None → current_conversation self ≠ KNone.

(** Further instances and updates for concrete runs. *)
Module Scenarios.

(** An instance whose stored state in the chat is a promise that completed
    with [None]. *)
Definition forgotten : ConversationHandler :=
  with_conversations (Fixtures.talking false [Fixtures.always END])
    {[ Fixtures.in_chat := VPromise 2 (Ok VNone) ]}.

(** A handler that accepts every update and whose callback raises. *)
Definition failing : Handler.t :=
  Handler.make (λ _, true) (λ _ _, Raise (CollaboratorError "callback")).

(** An instance on which [h] was selected for the conversation in the chat. *)
Definition chosen (h : Handler.t) : ConversationHandler :=
  with_selection (Fixtures.talking false []) Fixtures.in_chat (Some h).

End Scenarios.

(** ** Sequencing *)

Section Sequencing.

Context {R A B : Type}.
Variables (m : M R A) (k : A → M R B) (self : ConversationHandler).

Lemma bind_normal (a : A) (self' : ConversationHandler) (log : list event) :
  m self = mkRun (Normal a) self' log →
  bind m k self
  = mkRun (outcome (k a self')) (after (k a self')) (log ++ emitted (k a self')).
Proof. unfold bind. by intros ->. Qed.

Lemma bind_return (v : R) (self' : ConversationHandler) (log : list event) :
  m self = mkRun (Return v) self' log →
  bind m k self = mkRun (Return v) self' log.
Proof. unfold bind. by intros ->. Qed.

Lemma bind_raised (e : exn) (self' : ConversationHandler) (log : list event) :
  m self = mkRun (Raised e) self' log →
  bind m k self = mkRun (Raised e) self' log.
Proof. unfold bind. by intros ->. Qed.

End Sequencing.

(** ** Scans *)

Section Scans.

Context {R : Type}.
Variables (origin : Origin) (update : Update).

Lemma consulted_app (l1 l2 : list event) :
  consulted (l1 ++ l2) = consulted l1 ++ consulted l2.
Proof.
  induction l1 as [|e l1 IH]; [done|].
  destruct e; simpl; by rewrite IH.
Qed.

Lemma consulted_Consulted (hs : list Handler.t) :
  consulted (Consulted origin <$> hs) = scan origin hs.
Proof.
  unfold scan. induction hs as [|h hs IH]; [done|].
  simpl. f_equal. exact IH.
Qed.

(** A loop over handlers that all reject runs to its end. *)
Lemma for_break_exhausted (hs : list Handler.t) (self : ConversationHandler) :
  Forall (rejects update) hs →
  for_break (R:=R) origin update hs self
  = mkRun (Normal None) self (Consulted origin <$> hs).
Proof.
  induction 1 as [|h hs Hh _ IH]; [done|].
  simpl. unfold bind at 1. simpl.
  unfold rejects in Hh. rewrite Hh, IH. done.
Qed.

(** A loop breaks at the first acceptor and calls nothing after it. *)
Lemma for_break_first (hs before : list Handler.t) (h : Handler.t)
    (self : ConversationHandler) :
  first_acceptor update hs before h →
  for_break (R:=R) origin update hs self
  = mkRun (Normal (Some h)) self (Consulted origin <$> (before ++ [h])).
Proof.
  intros ([rest ->] & Hbefore & Hh).
  induction Hbefore as [|b before Hb _ IH]; simpl; unfold bind at 1; simpl.
  - unfold accepts in Hh. by rewrite Hh.
  - unfold rejects in Hb. by rewrite Hb, IH.
Qed.

(** A loop never touches [self], never returns or raises, and only emits
    calls of its own origin, on an initial segment of the list. *)
Lemma for_break_frame (hs : list Handler.t) (self : ConversationHandler) :
  ∃ found called,
    for_break (R:=R) origin update hs self
    = mkRun (Normal found) self (Consulted origin <$> called)
    ∧ called `prefix_of` hs.
Proof.
  induction hs as [|h hs (found & called & IH & Hp)]; simpl.
  - exists None, []. done.
  - erewrite bind_normal by done. cbn [app].
    destruct (Handler.check_update h update).
    + exists (Some h), [h]. split; [done|].
      by apply (prefix_cons h [] hs), prefix_nil.
    + exists found, (h :: called). rewrite IH.
      split; [done|]. by apply prefix_cons.
Qed.

End Scans.

(** ** Identity extraction and state resolution *)

Lemma resolve_state_resolved (self : ConversationHandler) (key : Key) (S : value) :
  current_state self key = Ok S →
  resolve_state key self
  = mkRun (Normal S) self (waiting_log self key ++ [DebugSelecting key S]).
Proof.
  unfold current_state, resolve_state, waiting_log. intros HS.
  rewrite (bind_normal _ _ _ self self []) by done. simpl.
  destruct (is_Promise (conversations_get self key)).
  - rewrite HS. done.
  - by injection HS as ->.
Qed.

Lemma resolve_state_failed (self : ConversationHandler) (key : Key) (e : exn) :
  current_state self key = Raise e →
  resolve_state key self = mkRun (Raised e) self (waiting_log self key).
Proof.
  unfold current_state, resolve_state, waiting_log. intros HS.
  rewrite (bind_normal _ _ _ self self []) by done. simpl.
  destruct (is_Promise (conversations_get self key)); [|done].
  rewrite HS. done.
Qed.

(** [check_update] on an update with identity [key] and resolved state [S]
    is the selection of lines 121-157 run with [state = S], after the debug
    records of lines 116 and 119. *)
Lemma check_update_resolved (self : ConversationHandler) (update : Update)
    (key : Key) (S : value) :
  identity update = Some (Ok key) →
  current_state self key = Ok S →
  check_update self (AnUpdate update)
  = let r := call (select_and_record key S update) self in
    mkRun (outcome r) (after r)
          (waiting_log self key ++ DebugSelecting key S :: emitted r).
Proof.
  unfold identity, check_update, call, check_update_body.
  intros Hid HS.
  destruct (sender_and_chat update) as [[user chat]|]; [|done].
  injection Hid as ->.
  rewrite (bind_normal _ _ _ key self []) by done.
  rewrite (bind_normal _ _ _ _ _ _ (resolve_state_resolved _ _ _ HS)).
  cbn [outcome after emitted app]. by rewrite <- app_assoc.
Qed.

(** ** Handler selection (lines 121-157) *)

Section Selection.

Variables (self : ConversationHandler) (key : Key) (S : value) (update : Update).

Lemma save_selection_run (handler : option Handler.t) :
  save_selection key handler self
  = mkRun (Return true) (with_selection self key handler) [].
Proof. done. Qed.

(** The entry block takes the first accepting entry point. *)
Lemma entry_block_first (before : list Handler.t) (h : Handler.t) :
  is_None S || allow_reentry self = true →
  first_acceptor update (entry_points self) before h →
  entry_block S update self
  = mkRun (Normal (Some h)) self (Consulted EntryPoint <$> (before ++ [h])).
Proof.
  intros Hscan Hfirst. unfold entry_block.
  rewrite (bind_normal _ _ _ self self []) by done. rewrite Hscan.
  erewrite bind_normal by (by apply for_break_first).
  cbn. by rewrite app_nil_r.
Qed.

(** Without a state, entry points that all reject end the call. *)
Lemma entry_block_no_state :
  is_None S = true →
  Forall (rejects update) (entry_points self) →
  entry_block S update self
  = mkRun (Return false) self (Consulted EntryPoint <$> entry_points self).
Proof.
  intros HS Hrej. unfold entry_block.
  rewrite (bind_normal _ _ _ self self []) by done. rewrite HS. cbn [orb].
  erewrite bind_normal by (by apply for_break_exhausted).
  cbn. by rewrite app_nil_r.
Qed.

(** In a state, when no entry point is taken, the entry block falls
    through with [handler = None]. *)
Lemma entry_block_falls_through :
  is_None S = false →
  allow_reentry self = false ∨ Forall (rejects update) (entry_points self) →
  entry_block S update self = mkRun (Normal None) self (entry_log self).
Proof.
  intros HS Hno. unfold entry_block, entry_log.
  rewrite (bind_normal _ _ _ self self []) by done. rewrite HS. cbn [orb].
  destruct (allow_reentry self) eqn:Hre; [|done].
  destruct Hno as [?|Hrej]; [done|].
  erewrite bind_normal by (by apply for_break_exhausted).
  cbn. by rewrite app_nil_r.
Qed.

(** The state block is skipped once a handler was found. *)
Lemma state_block_skipped (h : Handler.t) :
  state_block S (Some h) update self = mkRun (Normal (Some h)) self [].
Proof.
  unfold state_block.
  rewrite (bind_normal _ _ _ self self []) by done.
  cbn [truthy negb]. by rewrite andb_false_r.
Qed.

Lemma state_block_first (before : list Handler.t) (h : Handler.t) :
  is_None S = false →
  first_acceptor update (state_handlers self S) before h →
  state_block S None update self
  = mkRun (Normal (Some h)) self (Consulted StateHandler <$> (before ++ [h])).
Proof.
  intros HS Hfirst. unfold state_block.
  rewrite (bind_normal _ _ _ self self []) by done. rewrite HS. cbn [negb andb truthy].
  erewrite bind_normal by (by apply for_break_first).
  cbn. by rewrite app_nil_r.
Qed.

Lemma state_block_fallback (before : list Handler.t) (h : Handler.t) :
  is_None S = false →
  Forall (rejects update) (state_handlers self S) →
  first_acceptor update (fallbacks self) before h →
  state_block S None update self
  = mkRun (Normal (Some h)) self
          ((Consulted StateHandler <$> state_handlers self S)
             ++ (Consulted Fallback <$> (before ++ [h]))).
Proof.
  intros HS Hrej Hfirst. unfold state_block.
  rewrite (bind_normal _ _ _ self self []) by done. rewrite HS. cbn [negb andb truthy].
  erewrite bind_normal by (by apply for_break_exhausted). cbv beta iota.
  erewrite bind_normal by (by apply for_break_first).
  cbn. by rewrite app_nil_r.
Qed.

Lemma state_block_nothing :
  is_None S = false →
  Forall (rejects update) (state_handlers self S) →
  Forall (rejects update) (fallbacks self) →
  state_block S None update self
  = mkRun (Return false) self
          ((Consulted StateHandler <$> state_handlers self S)
             ++ (Consulted Fallback <$> fallbacks self)).
Proof.
  intros HS Hrej Hrej'. unfold state_block.
  rewrite (bind_normal _ _ _ self self []) by done. rewrite HS. cbn [negb andb truthy].
  erewrite bind_normal by (by apply for_break_exhausted). cbv beta iota.
  erewrite bind_normal by (by apply for_break_exhausted).
  cbn. by rewrite app_nil_r.
Qed.

(** An accepting entry point is taken whenever entry points are scanned. *)
Lemma select_entry_point (before : list Handler.t) (h : Handler.t) :
  is_None S || allow_reentry self = true →
  first_acceptor update (entry_points self) before h →
  select_and_record key S update self
  = mkRun (Return true) (with_selection self key (Some h))
          (Consulted EntryPoint <$> (before ++ [h])).
Proof.
  intros Hscan Hfirst. unfold select_and_record.
  rewrite (bind_normal _ _ _ _ _ _ (entry_block_first _ _ Hscan Hfirst)).
  rewrite (bind_normal _ _ _ _ _ _ (state_block_skipped h)).
  rewrite save_selection_run. cbn. by rewrite app_nil_r.
Qed.

Lemma select_no_state_rejected :
  is_None S = true →
  Forall (rejects update) (entry_points self) →
  select_and_record key S update self
  = mkRun (Return false) self (Consulted EntryPoint <$> entry_points self).
Proof.
  intros HS Hrej. unfold select_and_record.
  by rewrite (bind_return _ _ _ _ _ _ (entry_block_no_state HS Hrej)).
Qed.

(** In a state, with no entry point taken, the first accepting handler of
    the state is selected. *)
Lemma select_state_handler (before : list Handler.t) (h : Handler.t) :
  is_None S = false →
  allow_reentry self = false ∨ Forall (rejects update) (entry_points self) →
  first_acceptor update (state_handlers self S) before h →
  select_and_record key S update self
  = mkRun (Return true) (with_selection self key (Some h))
          (entry_log self ++ (Consulted StateHandler <$> (before ++ [h]))).
Proof.
  intros HS Hno Hfirst. unfold select_and_record.
  rewrite (bind_normal _ _ _ _ _ _ (entry_block_falls_through HS Hno)).
  rewrite (bind_normal _ _ _ _ _ _ (state_block_first _ _ HS Hfirst)).
  rewrite save_selection_run. cbn. by rewrite app_nil_r.
Qed.

(** When the state's handlers all reject, the first accepting fallback is
    selected. *)
Lemma select_fallback (before : list Handler.t) (h : Handler.t) :
  is_None S = false →
  allow_reentry self = false ∨ Forall (rejects update) (entry_points self) →
  Forall (rejects update) (state_handlers self S) →
  first_acceptor update (fallbacks self) before h →
  select_and_record key S update self
  = mkRun (Return true) (with_selection self key (Some h))
          (entry_log self ++ (Consulted StateHandler <$> state_handlers self S)
                     ++ (Consulted Fallback <$> (before ++ [h]))).
Proof.
  intros HS Hno Hrej Hfirst. unfold select_and_record.
  rewrite (bind_normal _ _ _ _ _ _ (entry_block_falls_through HS Hno)).
  rewrite (bind_normal _ _ _ _ _ _ (state_block_fallback _ _ HS Hrej Hfirst)).
  rewrite save_selection_run. cbn. by rewrite app_nil_r.
Qed.

(** When neither the state's handlers nor the fallbacks accept, the call
    returns [False] and records nothing. *)
Lemma select_nothing :
  is_None S = false →
  allow_reentry self = false ∨ Forall (rejects update) (entry_points self) →
  Forall (rejects update) (state_handlers self S) →
  Forall (rejects update) (fallbacks self) →
  select_and_record key S update self
  = mkRun (Return false) self
          (entry_log self ++ (Consulted StateHandler <$> state_handlers self S)
                     ++ (Consulted Fallback <$> fallbacks self)).
Proof.
  intros HS Hno Hrej Hrej'. unfold select_and_record.
  rewrite (bind_normal _ _ _ _ _ _ (entry_block_falls_through HS Hno)).
  by rewrite (bind_return _ _ _ _ _ _ (state_block_nothing HS Hrej Hrej')).
Qed.

End Selection.

(** ** What a call of [check_update] can do to the instance *)

Section Effects.

Variables (self : ConversationHandler) (key : Key) (S : value) (update : Update).

Lemma entry_block_effect :
  ∃ called,
    called `prefix_of` entry_points self ∧
    let log := Consulted EntryPoint <$> called in
    (∃ h, entry_block S update self = mkRun (Normal (Some h)) self log)
    ∨ (is_None S = true ∧ entry_block S update self = mkRun (Return false) self log)
    ∨ (is_None S = false ∧ entry_block S update self = mkRun (Normal None) self log).
Proof.
  unfold entry_block. rewrite (bind_normal _ _ _ self self []) by done.
  cbn [app].
  destruct (is_None S || allow_reentry self) eqn:Hscan.
  - destruct (for_break_frame (R:=bool) EntryPoint update (entry_points self) self)
      as (found & called & Hrun & Hp).
    exists called. split; [done|].
    erewrite bind_normal by exact Hrun.
    destruct found as [h|]; cbv beta iota.
    + left. exists h. cbn. by rewrite app_nil_r.
    + destruct (is_None S); [right; left|right; right];
        cbn; by rewrite app_nil_r.
  - exists []. split; [apply prefix_nil|].
    apply orb_false_iff in Hscan as [HS _]. right; right. done.
Qed.

Lemma state_block_effect :
  is_None S = false →
  ∃ log,
    (∃ h, state_block S None update self = mkRun (Normal (Some h)) self log)
    ∨ state_block S None update self = mkRun (Return false) self log.
Proof.
  intros HS. unfold state_block.
  rewrite (bind_normal _ _ _ self self []) by done.
  rewrite HS. cbn [negb andb truthy app].
  destruct (for_break_frame (R:=bool) StateHandler update
              (default [] (dict_get (states self) S)) self)
    as (found & called & Hrun & _).
  erewrite bind_normal by exact Hrun.
  destruct found as [h|]; cbv beta iota.
  - eexists. left. exists h. done.
  - destruct (for_break_frame (R:=bool) Fallback update (fallbacks self) self)
      as (found & called' & Hrun' & _).
    erewrite bind_normal by exact Hrun'.
    destruct found as [h|]; eexists; [left; exists h|right]; done.
Qed.

(** Selection either records a handler and returns [True], or returns
    [False] and leaves the instance as it was. *)
Lemma select_and_record_effect :
  ∃ log,
    (∃ h, select_and_record key S update self
          = mkRun (Return true) (with_selection self key (Some h)) log)
    ∨ select_and_record key S update self = mkRun (Return false) self log.
Proof.
  unfold select_and_record.
  destruct entry_block_effect as (called & _ & [[h Hrun]|[[_ Hrun]|[HS Hrun]]]).
  - rewrite (bind_normal _ _ _ _ _ _ Hrun).
    rewrite (bind_normal _ _ _ _ _ _ (state_block_skipped _ _ _ h)).
    rewrite save_selection_run. eexists. left. exists h. done.
  - rewrite (bind_return _ _ _ _ _ _ Hrun). eexists. by right.
  - rewrite (bind_normal _ _ _ _ _ _ Hrun).
    destruct (state_block_effect HS) as (log & [[h Hrun']|Hrun']).
    + rewrite (bind_normal _ _ _ _ _ _ Hrun').
      rewrite save_selection_run. eexists. left. exists h. done.
    + rewrite (bind_return _ _ _ _ _ _ Hrun'). eexists. by right.
Qed.

End Effects.

(** An update without identity is declined before anything else happens. *)
Lemma check_update_no_identity (self : ConversationHandler) (update : Update) :
  identity update = None →
  check_update self (AnUpdate update) = mkRun (Ok false) self [].
Proof.
  unfold identity, check_update, call, check_update_body.
  by destruct (sender_and_chat update) as [[user chat]|].
Qed.

(** An exception raised while building the key leaves the call. *)
Lemma check_update_identity_raises (self : ConversationHandler)
    (update : Update) (e : exn) :
  identity update = Some (Raise e) →
  check_update self (AnUpdate update) = mkRun (Raise e) self [].
Proof.
  unfold identity, check_update, call, check_update_body.
  destruct (sender_and_chat update) as [[user chat]|]; [|done].
  intros [= ->]. done.
Qed.

(** A failure of the stored promise leaves the call. *)
Lemma check_update_resolution_raises (self : ConversationHandler)
    (update : Update) (key : Key) (e : exn) :
  identity update = Some (Ok key) →
  current_state self key = Raise e →
  check_update self (AnUpdate update)
  = mkRun (Raise e) self (waiting_log self key).
Proof.
  unfold identity, check_update, call, check_update_body.
  intros Hid HS.
  destruct (sender_and_chat update) as [[user chat]|]; [|done].
  injection Hid as ->.
  rewrite (bind_normal _ _ _ key self []) by done.
  by rewrite (bind_raised _ _ _ _ _ _ (resolve_state_failed _ _ _ HS)).
Qed.

(** [check_update] either returns [True] having recorded a selection with
    an actual handler, or it ends otherwise with the instance untouched. *)
Lemma check_update_effect (self : ConversationHandler) (update : PyObject) :
  let r := check_update self update in
  (outcome r = Ok true ∧ ∃ key h, after r = with_selection self key (Some h))
  ∨ (outcome r ≠ Ok true ∧ after r = self).
Proof.
  destruct update as [repr|update]; [by right|].
  destruct (identity update) as [[key|e]|] eqn:Hid.
  - destruct (current_state self key) as [S|e] eqn:HS.
    + rewrite (check_update_resolved _ _ _ _ Hid HS).
      destruct (select_and_record_effect self key S update)
        as (log & [[h Hrun]|Hrun]); unfold call; rewrite Hrun; cbn.
      * left. split; [done|]. by exists key, h.
      * by right.
    + rewrite (check_update_resolution_raises _ _ _ _ Hid HS). by right.
  - rewrite (check_update_identity_raises _ _ _ Hid). by right.
  - rewrite (check_update_no_identity _ _ Hid). by right.
Qed.

(** [check_update] raises in two cases only: the update's sender is absent
    when the key is built, or the stored promise fails when resolved. *)
Lemma check_update_raises_only (self : ConversationHandler) (update : PyObject)
    (e : exn) :
  outcome (check_update self update) = Raise e →
  ∃ upd, update = AnUpdate upd
         ∧ (identity upd = Some (Raise e)
            ∨ ∃ key, identity upd = Some (Ok key)
                     ∧ current_state self key = Raise e).
Proof.
  destruct update as [repr|update]; [done|].
  intros Hraise. exists update. split; [done|].
  destruct (identity update) as [[key|e']|] eqn:Hid.
  - right. exists key. split; [done|].
    destruct (current_state self key) as [S|e'] eqn:HS.
    + rewrite (check_update_resolved _ _ _ _ Hid HS) in Hraise.
      destruct (select_and_record_effect self key S update)
        as (log & [[h Hrun]|Hrun]); unfold call in Hraise;
        rewrite Hrun in Hraise; done.
    + rewrite (check_update_resolution_raises _ _ _ _ Hid HS) in Hraise.
      by injection Hraise as ->.
  - rewrite (check_update_identity_raises _ _ _ Hid) in Hraise.
    left. by injection Hraise as ->.
  - by rewrite (check_update_no_identity _ _ Hid) in Hraise.
Qed.

(** ** What a call of [handle_update] does *)

Section Commit.

Variables (self : ConversationHandler) (update : Update) (dispatcher : Dispatcher).

(** Without a recorded handler the attribute access on [None] raises. *)
Lemma handle_update_unselected :
  current_handler self = None →
  handle_update self update dispatcher = mkRun (Raise AttributeError) self [].
Proof.
  intros Hnone. unfold handle_update, call, handle_update_body.
  erewrite bind_raised; [done|].
  unfold call_current_handler.
  rewrite (bind_normal _ _ _ self self []) by done. by rewrite Hnone.
Qed.

Variables (h : Handler.t) (new_state : value).
Hypothesis Hselected : current_handler self = Some h.
Hypothesis Houtcome : Handler.handle_update h update dispatcher = Ok new_state.

Lemma call_current_handler_run {R} :
  call_current_handler (R:=R) update dispatcher self
  = mkRun (Normal new_state) self [].
Proof.
  unfold call_current_handler.
  rewrite (bind_normal _ _ _ self self []) by done.
  by rewrite Hselected, Houtcome.
Qed.

(** [END] on a stored conversation deletes its entry. *)
Lemma handle_update_END_stored (v : value) :
  py_eq new_state END = true →
  conversations self !! current_conversation self = Some v →
  handle_update self update dispatcher
  = mkRun (Ok tt)
      (with_conversations self
         (delete (current_conversation self) (conversations self))) [].
Proof.
  intros Hend Hstored. unfold handle_update, call, handle_update_body.
  rewrite (bind_normal _ _ _ _ _ _ call_current_handler_run).
  rewrite (bind_normal _ _ _ self self []) by done.
  rewrite Hend. unfold del_conversation.
  rewrite (bind_normal _ _ _ self self []) by done.
  by rewrite Hstored.
Qed.

(** [END] without a stored conversation: [del] raises [KeyError]. *)
Lemma handle_update_END_absent :
  py_eq new_state END = true →
  conversations self !! current_conversation self = None →
  handle_update self update dispatcher = mkRun (Raise KeyError) self [].
Proof.
  intros Hend Habsent. unfold handle_update, call, handle_update_body.
  rewrite (bind_normal _ _ _ _ _ _ call_current_handler_run).
  rewrite (bind_normal _ _ _ self self []) by done.
  rewrite Hend. unfold del_conversation.
  rewrite (bind_normal _ _ _ self self []) by done.
  by rewrite Habsent.
Qed.

(** Any other outcome than [END] and [None] becomes the stored state. *)
Lemma handle_update_new_state :
  py_eq new_state END = false →
  is_None new_state = false →
  handle_update self update dispatcher
  = mkRun (Ok tt)
      (with_conversations self
         (<[current_conversation self := new_state]> (conversations self))) [].
Proof.
  intros Hend Hnone. unfold handle_update, call, handle_update_body.
  rewrite (bind_normal _ _ _ _ _ _ call_current_handler_run).
  rewrite (bind_normal _ _ _ self self []) by done.
  by rewrite Hend, Hnone.
Qed.

End Commit.

(** ** Logs *)

Lemma consulted_check_log (self : ConversationHandler) (key : Key) (S : value)
    (log : list event) :
  consulted (waiting_log self key ++ DebugSelecting key S :: log) = consulted log.
Proof.
  unfold waiting_log. by destruct (is_Promise (conversations_get self key)).
Qed.

Lemma consulted_entry_log (self : ConversationHandler) :
  consulted (entry_log self) = entry_scan self.
Proof.
  unfold entry_log, entry_scan.
  destruct (allow_reentry self); [apply consulted_Consulted|done].
Qed.

Lemma is_None_false (S : value) : S ≠ VNone → is_None S = false.
Proof. by destruct S. Qed.

(** A result of selection is the result of the whole check. *)
Lemma check_update_selects (self self' : ConversationHandler) (update : Update)
    (key : Key) (S : value) (b : bool) (log : list event) :
  identity update = Some (Ok key) →
  current_state self key = Ok S →
  select_and_record key S update self = mkRun (Return b) self' log →
  let r := check_update self (AnUpdate update) in
  outcome r = Ok b ∧ after r = self' ∧ consulted (emitted r) = consulted log.
Proof.
  intros Hid HS Hsel. rewrite (check_update_resolved _ _ _ _ Hid HS).
  unfold call. rewrite Hsel. cbn. by rewrite consulted_check_log.
Qed.

(** A key without entry reads as [None], and so does its resolved state. *)
Lemma current_state_absent (self : ConversationHandler) (key : Key) :
  conversations self !! key = None → current_state self key = Ok VNone.
Proof. unfold current_state, conversations_get. by intros ->. Qed.

(** A promise is strictly deeper than the value it completes with. *)
Lemma result_not_handle (ident : nat) (v : value) : v ≠ VPromise ident (Ok v).
Proof.
  intros Heq. apply (f_equal promise_depth) in Heq. simpl in Heq. lia.
Qed.

(** Calls without a successful selection leave a fresh instance fresh. *)
Lemma no_selection_run (self : ConversationHandler) (calls : list Call) :
  current_handler self = None →
  no_selection self calls →
  run_calls self calls = self.
Proof.
  intros Hnone. induction calls as [|c calls IH]; [done|].
  intros [Hc Hrest]. unfold run_calls. simpl.
  assert (step self c = self) as Hstep.
  { destruct c as [update|update dispatcher]; cbn [step]; cbv beta iota in Hc.
    - destruct (check_update_effect self update) as [[? _]|[_ ?]]; done.
    - by rewrite handle_update_unselected. }
  rewrite Hstep in *. by apply IH.
Qed.

(** ** The commit phase and the selection record *)

(** C1, as the code has it: on an instance on which no [check_update] has
    returned [True] since its construction, [handle_update] fails with an
    [AttributeError], whatever the update; the failure ends that call only
    and leaves the instance, its store included, as it was. *)
Theorem handle_update_before_any_selection
    (eps : list Handler.t) (sts : list (value * list Handler.t))
    (fbs : list Handler.t) (reentry : bool)
    (calls : list Call) (update : Update) (dispatcher : Dispatcher) :
  no_selection (__init__ eps sts fbs reentry) calls →
  let self := run_calls (__init__ eps sts fbs reentry) calls in
  handle_update self update dispatcher = mkRun (Raise AttributeError) self [].
Proof.
  intros Hno. cbv zeta.
  rewrite (no_selection_run (__init__ eps sts fbs reentry) calls eq_refl Hno).
  by apply handle_update_unselected.
Qed.

Lemma handle_update_before_any_selection_witness :
  no_selection Fixtures.starting Fixtures.unsuccessful
  ∧ outcome (handle_update (run_calls Fixtures.starting Fixtures.unsuccessful)
               Fixtures.text_update Fixtures.engine)
    = Raise AttributeError.
Proof.
  assert (no_selection Fixtures.starting Fixtures.unsuccessful) as Hno.
  { vm_compute. repeat split; discriminate. }
  split; [exact Hno|].
  exact (f_equal outcome
           (handle_update_before_any_selection _ _ _ _ _
              Fixtures.text_update Fixtures.engine Hno)).
Defined.

(** C1, as stated, fails: after one update was checked and handled, a
    commit for another update, for which no selection was ever made, does
    not fail.  It runs the handler recorded for the first update and
    overwrites the state stored for the first update's identity. *)
Lemma stale_selection_is_committed :
  ¬ selection_for Fixtures.starting Fixtures.started Fixtures.query_update
  ∧ outcome (handle_update (run_calls Fixtures.starting Fixtures.started)
               Fixtures.query_update Fixtures.engine) = Ok tt
  ∧ conversations (run_calls Fixtures.starting Fixtures.started)
      !! Fixtures.in_chat = Some Fixtures.AWAITING_NAME
  ∧ conversations
      (after (handle_update (run_calls Fixtures.starting Fixtures.started)
                Fixtures.query_update Fixtures.engine))
      !! Fixtures.in_chat = Some Fixtures.AWAITING_AGE.
Proof.
  split_and!; [|by vm_compute..].
  simpl. intros [[Heq _]|[[Heq _]|[]]]; discriminate Heq.
Qed.

(** C2, where the code departs from it: an entry point that reports [END]
    for an identity without entry is selected by [check_update], and the
    commit then raises [KeyError] instead of doing nothing. *)
Theorem END_without_entry_raises_KeyError :
  let checked := check_update Fixtures.ending (AnUpdate Fixtures.text_update) in
  outcome checked = Ok true
  ∧ current_conversation (after checked) = Fixtures.in_chat
  ∧ conversations (after checked) !! Fixtures.in_chat = None
  ∧ outcome (handle_update (after checked) Fixtures.text_update Fixtures.engine)
    = Raise KeyError.
Proof. by vm_compute. Qed.

(** C9: when the selected handler returns [None], the commit returns
    without touching the instance: the store, and so the state stored for
    any identity, is what it was. *)
Theorem handle_update_no_change (self : ConversationHandler) (h : Handler.t)
    (update : Update) (dispatcher : Dispatcher) :
  current_handler self = Some h →
  Handler.handle_update h update dispatcher = Ok VNone →
  let r := handle_update self update dispatcher in
  outcome r = Ok tt ∧ after r = self
  ∧ conversations (after r) = conversations self.
Proof.
  intros Hsel Hout. cbv zeta.
  assert (handle_update self update dispatcher = mkRun (Ok tt) self []) as ->; [|done].
  unfold handle_update, call, handle_update_body.
  rewrite (bind_normal _ _ _ _ _ _
             (call_current_handler_run self update dispatcher h VNone Hsel Hout)).
  by rewrite (bind_normal _ _ _ self self []).
Qed.

Lemma handle_update_no_change_witness :
  current_handler Fixtures.selected = Some (Fixtures.always VNone)
  ∧ conversations
      (after (handle_update Fixtures.selected Fixtures.text_update Fixtures.engine))
    = conversations Fixtures.selected.
Proof.
  split; [reflexivity|].
  apply (handle_update_no_change Fixtures.selected (Fixtures.always VNone)
           Fixtures.text_update Fixtures.engine); reflexivity.
Defined.

(** ** The check phase *)

(** C3, where the code departs from it: a message without sender is not
    declined with [False]; building the key raises [AttributeError]. *)
Theorem senderless_message_raises_AttributeError :
  sender_and_chat Fixtures.channel_update = Some (None, Some (mkChat 3))
  ∧ check_update Fixtures.starting (AnUpdate Fixtures.channel_update)
    = mkRun (Raise AttributeError) Fixtures.starting [].
Proof. by vm_compute. Qed.

(** C10: [check_update] never modifies the store, whatever it is given and
    however it ends; in particular a stored promise stays stored. *)
Theorem check_update_preserves_store (self : ConversationHandler)
    (update : PyObject) :
  conversations (after (check_update self update)) = conversations self.
Proof.
  destruct (check_update_effect self update)
    as [[_ (key & h & ->)]|[_ ->]]; done.
Qed.

(** C4: when the value stored for the update's identity is a promise that
    completes with [v], [check_update] logs the selection with state [v]
    and is from there on the selection of lines 121-157 run with [v]; the
    promise itself is a different value and is not what selection sees. *)
Theorem pending_state_is_resolved (self : ConversationHandler)
    (update : Update) (key : Key) (ident : nat) (v : value) :
  identity update = Some (Ok key) →
  conversations self !! key = Some (VPromise ident (Ok v)) →
  let selection := call (select_and_record key v update) self in
  check_update self (AnUpdate update)
  = mkRun (outcome selection) (after selection)
          (DebugWaiting :: DebugSelecting key v :: emitted selection)
  ∧ v ≠ VPromise ident (Ok v).
Proof.
  intros Hid Hstored. cbv zeta. split; [|apply result_not_handle].
  assert (current_state self key = Ok v) as HS.
  { unfold current_state, conversations_get. by rewrite Hstored. }
  rewrite (check_update_resolved _ _ _ _ Hid HS).
  unfold waiting_log, conversations_get. by rewrite Hstored.
Qed.

Lemma pending_state_is_resolved_witness :
  identity Fixtures.text_update = Some (Ok Fixtures.in_chat)
  ∧ conversations Fixtures.pending !! Fixtures.in_chat
    = Some (VPromise 1 (Ok Fixtures.AWAITING_NAME))
  ∧ emitted (check_update Fixtures.pending (AnUpdate Fixtures.text_update))
    = DebugWaiting :: DebugSelecting Fixtures.in_chat Fixtures.AWAITING_NAME
        :: emitted (call (select_and_record Fixtures.in_chat Fixtures.AWAITING_NAME
                            Fixtures.text_update) Fixtures.pending).
Proof.
  assert (identity Fixtures.text_update = Some (Ok Fixtures.in_chat)) as Hid
    by reflexivity.
  assert (conversations Fixtures.pending !! Fixtures.in_chat
          = Some (VPromise 1 (Ok Fixtures.AWAITING_NAME))) as Hstored
    by (by vm_compute).
  split_and!; [exact Hid|exact Hstored|].
  exact (f_equal emitted
           (proj1 (pending_state_is_resolved _ _ _ _ _ Hid Hstored))).
Defined.

(** ** Routing *)

Section Routing.

Variables (self : ConversationHandler) (update : Update) (key : Key) (S : value).

Hypothesis Hidentity : identity update = Some (Ok key).

(** C5: under reentry, in an active state [S], the first entry point that
    accepts the update is selected and the check returns [True] at once:
    the only handlers called are the entry points up to that one,
    whatever the handlers registered for [S] would have answered. *)
Theorem reentry_entry_point_first (before : list Handler.t) (h : Handler.t) :
  allow_reentry self = true →
  current_state self key = Ok S →
  S ≠ VNone →
  first_acceptor update (entry_points self) before h →
  let r := check_update self (AnUpdate update) in
  outcome r = Ok true
  ∧ after r = with_selection self key (Some h)
  ∧ consulted (emitted r) = scan EntryPoint (before ++ [h]).
Proof.
  intros Hre HS _ Hfirst.
  assert (is_None S || allow_reentry self = true) as Hscan
    by (rewrite Hre; apply orb_true_r).
  pose proof (check_update_selects _ _ _ _ _ _ _ Hidentity HS
                (select_entry_point self key S update before h Hscan Hfirst))
    as Hrun.
  by rewrite consulted_Consulted in Hrun.
Qed.

(** C6: under reentry, in an active state [S], when every entry point
    rejects the update the check goes on to the handlers registered for
    [S] and selects the first of them that accepts. *)
Theorem reentry_falls_through_to_state (before : list Handler.t) (h : Handler.t) :
  allow_reentry self = true →
  current_state self key = Ok S →
  S ≠ VNone →
  Forall (rejects update) (entry_points self) →
  first_acceptor update (state_handlers self S) before h →
  let r := check_update self (AnUpdate update) in
  outcome r = Ok true
  ∧ after r = with_selection self key (Some h)
  ∧ consulted (emitted r)
    = scan EntryPoint (entry_points self) ++ scan StateHandler (before ++ [h]).
Proof.
  intros Hre HS HSn Hrej Hfirst.
  pose proof (check_update_selects _ _ _ _ _ _ _ Hidentity HS
                (select_state_handler self key S update before h
                   (is_None_false S HSn) (or_intror Hrej) Hfirst))
    as Hrun.
  rewrite consulted_app, consulted_entry_log, consulted_Consulted in Hrun.
  unfold entry_scan in Hrun. by rewrite Hre in Hrun.
Qed.

(** C7: for an identity without stored state only entry points are
    called, in declared order; when none of them accepts, the check
    returns [False] after calling exactly the entry points, and leaves
    the instance as it was. *)
Theorem no_state_only_entry_points :
  conversations self !! key = None →
  let r := check_update self (AnUpdate update) in
  (∃ called, called `prefix_of` entry_points self
             ∧ consulted (emitted r) = scan EntryPoint called)
  ∧ (Forall (rejects update) (entry_points self) →
     outcome r = Ok false ∧ after r = self
     ∧ consulted (emitted r) = scan EntryPoint (entry_points self)).
Proof.
  intros Habsent. pose proof (current_state_absent _ _ Habsent) as HS.
  cbv zeta. split.
  - rewrite (check_update_resolved _ _ _ _ Hidentity HS).
    cbn [emitted]. rewrite consulted_check_log.
    unfold call, select_and_record. cbn [emitted].
    destruct (entry_block_effect self VNone update)
      as (called & Hp & [[h Hrun]|[[_ Hrun]|[HS' _]]]); [| |done];
      exists called; (split; [done|]).
    + rewrite (bind_normal _ _ _ _ _ _ Hrun).
      rewrite (bind_normal _ _ _ _ _ _ (state_block_skipped _ _ _ h)).
      rewrite save_selection_run. cbn [emitted].
      by rewrite !app_nil_r, consulted_Consulted.
    + rewrite (bind_return _ _ _ _ _ _ Hrun). cbn [emitted].
      by rewrite consulted_Consulted.
  - intros Hrej.
    pose proof (check_update_selects _ _ _ _ _ _ _ Hidentity HS
                  (select_no_state_rejected self key VNone update eq_refl Hrej))
      as Hrun.
    by rewrite consulted_Consulted in Hrun.
Qed.

(** C8: in a state [S], when no entry point is taken (reentry is off, or
    every entry point rejected the update): the first handler of [S] that
    accepts is selected and no fallback is called; when no handler of [S]
    accepts, or none is registered, the first fallback that accepts is
    selected; when no fallback accepts either, the check returns
    [False]. *)
Theorem state_handlers_before_fallbacks :
  current_state self key = Ok S →
  S ≠ VNone →
  allow_reentry self = false ∨ Forall (rejects update) (entry_points self) →
  let r := check_update self (AnUpdate update) in
  let handlers := state_handlers self S in
  (∀ before h,
      first_acceptor update handlers before h →
      outcome r = Ok true
      ∧ after r = with_selection self key (Some h)
      ∧ consulted (emitted r)
        = entry_scan self ++ scan StateHandler (before ++ [h]))
  ∧ (Forall (rejects update) handlers →
     (∀ before h,
         first_acceptor update (fallbacks self) before h →
         outcome r = Ok true
         ∧ after r = with_selection self key (Some h)
         ∧ consulted (emitted r)
           = entry_scan self ++ scan StateHandler handlers
               ++ scan Fallback (before ++ [h]))
     ∧ (Forall (rejects update) (fallbacks self) →
        outcome r = Ok false
        ∧ after r = self
        ∧ consulted (emitted r)
          = entry_scan self ++ scan StateHandler handlers
              ++ scan Fallback (fallbacks self))).
Proof.
  intros HS HSn Hno. apply is_None_false in HSn. cbv zeta.
  split; [|intros Hrej; split].
  - intros before h Hfirst.
    pose proof (check_update_selects _ _ _ _ _ _ _ Hidentity HS
                  (select_state_handler self key S update before h HSn Hno Hfirst))
      as Hrun.
    by rewrite consulted_app, consulted_entry_log, consulted_Consulted in Hrun.
  - intros before h Hfirst.
    pose proof (check_update_selects _ _ _ _ _ _ _ Hidentity HS
                  (select_fallback self key S update before h HSn Hno Hrej Hfirst))
      as Hrun.
    by rewrite !consulted_app, consulted_entry_log, !consulted_Consulted in Hrun.
  - intros Hrej'.
    pose proof (check_update_selects _ _ _ _ _ _ _ Hidentity HS
                  (select_nothing self key S update HSn Hno Hrej Hrej'))
      as Hrun.
    by rewrite !consulted_app, consulted_entry_log, !consulted_Consulted in Hrun.
Qed.

End Routing.

(** ** Concrete runs of the routing theorems *)

Lemma reentry_entry_point_first_witness :
  let self := Fixtures.talking true [Fixtures.always END] in
  let r := check_update self (AnUpdate Fixtures.text_update) in
  allow_reentry self = true
  ∧ current_state self Fixtures.in_chat = Ok Fixtures.AWAITING_NAME
  ∧ first_acceptor Fixtures.text_update (entry_points self)
      [Fixtures.never VNone] (Fixtures.on_message Fixtures.AWAITING_NAME)
  ∧ accepts Fixtures.text_update (Fixtures.always Fixtures.AWAITING_AGE)
  ∧ Fixtures.always Fixtures.AWAITING_AGE
    ∈ state_handlers self Fixtures.AWAITING_NAME
  ∧ outcome r = Ok true
  ∧ after r = with_selection self Fixtures.in_chat
                (Some (Fixtures.on_message Fixtures.AWAITING_NAME))
  ∧ consulted (emitted r)
    = scan EntryPoint [Fixtures.never VNone;
                       Fixtures.on_message Fixtures.AWAITING_NAME].
Proof.
  cbv zeta.
  assert (first_acceptor Fixtures.text_update
            (entry_points (Fixtures.talking true [Fixtures.always END]))
            [Fixtures.never VNone] (Fixtures.on_message Fixtures.AWAITING_NAME))
    as Hfirst.
  { split_and!; [by exists []|by repeat constructor|reflexivity]. }
  pose proof (reentry_entry_point_first
                (Fixtures.talking true [Fixtures.always END]) Fixtures.text_update
                Fixtures.in_chat Fixtures.AWAITING_NAME eq_refl
                [Fixtures.never VNone] (Fixtures.on_message Fixtures.AWAITING_NAME)
                eq_refl ltac:(by vm_compute) ltac:(discriminate) Hfirst)
    as (Hout & Hafter & Hcalls).
  split_and!;
    [reflexivity|by vm_compute|exact Hfirst|reflexivity|
     |exact Hout|exact Hafter|exact Hcalls].
  vm_compute. apply list_elem_of_further, list_elem_of_here.
Defined.

Lemma reentry_falls_through_to_state_witness :
  let self := Fixtures.talking true [Fixtures.always END] in
  let r := check_update self (AnUpdate Fixtures.query_update) in
  allow_reentry self = true
  ∧ current_state self Fixtures.no_chat = Ok Fixtures.AWAITING_NAME
  ∧ Forall (rejects Fixtures.query_update) (entry_points self)
  ∧ first_acceptor Fixtures.query_update
      (state_handlers self Fixtures.AWAITING_NAME)
      [Fixtures.never VNone] (Fixtures.always Fixtures.AWAITING_AGE)
  ∧ outcome r = Ok true
  ∧ after r = with_selection self Fixtures.no_chat
                (Some (Fixtures.always Fixtures.AWAITING_AGE))
  ∧ consulted (emitted r)
    = scan EntryPoint (entry_points self)
        ++ scan StateHandler [Fixtures.never VNone;
                              Fixtures.always Fixtures.AWAITING_AGE].
Proof.
  cbv zeta.
  assert (Forall (rejects Fixtures.query_update)
            (entry_points (Fixtures.talking true [Fixtures.always END])))
    as Hrej by (by repeat constructor).
  assert (first_acceptor Fixtures.query_update
            (state_handlers (Fixtures.talking true [Fixtures.always END])
               Fixtures.AWAITING_NAME)
            [Fixtures.never VNone] (Fixtures.always Fixtures.AWAITING_AGE))
    as Hfirst.
  { split_and!; [by exists []|by repeat constructor|reflexivity]. }
  pose proof (reentry_falls_through_to_state
                (Fixtures.talking true [Fixtures.always END]) Fixtures.query_update
                Fixtures.no_chat Fixtures.AWAITING_NAME eq_refl
                [Fixtures.never VNone] (Fixtures.always Fixtures.AWAITING_AGE)
                eq_refl ltac:(by vm_compute) ltac:(discriminate) Hrej Hfirst)
    as (Hout & Hafter & Hcalls).
  split_and!;
    [reflexivity|by vm_compute|exact Hrej|exact Hfirst
     |exact Hout|exact Hafter|exact Hcalls].
Defined.

Lemma no_state_only_entry_points_witness :
  let self := Fixtures.starting in
  let r := check_update self (AnUpdate Fixtures.query_update) in
  conversations self !! Fixtures.no_chat = None
  ∧ Forall (rejects Fixtures.query_update) (entry_points self)
  ∧ outcome r = Ok false
  ∧ after r = self
  ∧ consulted (emitted r) = scan EntryPoint (entry_points self).
Proof.
  cbv zeta.
  assert (Forall (rejects Fixtures.query_update) (entry_points Fixtures.starting))
    as Hrej by (by repeat constructor).
  pose proof (proj2 (no_state_only_entry_points Fixtures.starting
                       Fixtures.query_update Fixtures.no_chat eq_refl eq_refl) Hrej)
    as (Hout & Hafter & Hcalls).
  split_and!; [reflexivity|exact Hrej|exact Hout|exact Hafter|exact Hcalls].
Defined.

Lemma state_handlers_before_fallbacks_witness :
  let named := Fixtures.talking false [Fixtures.always END] in
  let aged := Fixtures.aging [Fixtures.always END] in
  let stuck := Fixtures.aging [Fixtures.never VNone] in
  (current_state named Fixtures.in_chat = Ok Fixtures.AWAITING_NAME
   ∧ after (check_update named (AnUpdate Fixtures.text_update))
     = with_selection named Fixtures.in_chat
         (Some (Fixtures.always Fixtures.AWAITING_AGE))
   ∧ consulted (emitted (check_update named (AnUpdate Fixtures.text_update)))
     = scan StateHandler [Fixtures.never VNone;
                          Fixtures.always Fixtures.AWAITING_AGE])
  ∧ (current_state aged Fixtures.in_chat = Ok Fixtures.AWAITING_AGE
     ∧ after (check_update aged (AnUpdate Fixtures.text_update))
       = with_selection aged Fixtures.in_chat (Some (Fixtures.always END)))
  ∧ (current_state stuck Fixtures.in_chat = Ok Fixtures.AWAITING_AGE
     ∧ outcome (check_update stuck (AnUpdate Fixtures.text_update)) = Ok false).
Proof.
  cbv zeta.
  pose proof (proj1 (state_handlers_before_fallbacks
                       (Fixtures.talking false [Fixtures.always END])
                       Fixtures.text_update Fixtures.in_chat Fixtures.AWAITING_NAME
                       eq_refl ltac:(by vm_compute) ltac:(discriminate)
                       (or_introl eq_refl))
                [Fixtures.never VNone] (Fixtures.always Fixtures.AWAITING_AGE)
                ltac:(split_and!; [by exists []|by repeat constructor|reflexivity]))
    as (_ & Hnamed & Hcalls).
  pose proof (proj1 (proj2 (state_handlers_before_fallbacks
                              (Fixtures.aging [Fixtures.always END])
                              Fixtures.text_update Fixtures.in_chat
                              Fixtures.AWAITING_AGE
                              eq_refl ltac:(by vm_compute) ltac:(discriminate)
                              (or_introl eq_refl))
                       ltac:(by repeat constructor))
                [] (Fixtures.always END)
                ltac:(split_and!; [by exists []|by repeat constructor|reflexivity]))
    as (_ & Haged & _).
  pose proof (proj2 (proj2 (state_handlers_before_fallbacks
                              (Fixtures.aging [Fixtures.never VNone])
                              Fixtures.text_update Fixtures.in_chat
                              Fixtures.AWAITING_AGE
                              eq_refl ltac:(by vm_compute) ltac:(discriminate)
                              (or_introl eq_refl))
                       ltac:(by repeat constructor))
                ltac:(by repeat constructor))
    as (Hstuck & _ & _).
  split_and!;
    [by vm_compute|exact Hnamed|exact Hcalls
     |by vm_compute|exact Haged|by vm_compute|exact Hstuck].
Defined.

(** ** Selection as a first match *)

Section FirstMatch.

Variables (self : ConversationHandler) (key : Key) (S : value) (update : Update).

Lemma first_accepting_app (l1 l2 : list Handler.t) :
  first_accepting update (l1 ++ l2)
  = match first_accepting update l1 with
    | Some h => Some h
    | None => first_accepting update l2
    end.
Proof.
  unfold first_accepting. induction l1 as [|h l1 IH]; [done|].
  simpl. by destruct (Handler.check_update h update).
Qed.

Lemma first_accepting_Some (hs : list Handler.t) (h : Handler.t) :
  first_accepting update hs = Some h → h ∈ hs ∧ accepts update h.
Proof.
  unfold first_accepting, accepts. induction hs as [|h' hs IH]; [done|].
  simpl. destruct (Handler.check_update h' update) eqn:Hacc.
  - intros [= ->]. split; [apply list_elem_of_here|done].
  - intros Hfind. destruct (IH Hfind) as [Hin Hh].
    split; [by apply list_elem_of_further|done].
Qed.

Lemma first_accepting_None (hs : list Handler.t) :
  first_accepting update hs = None → Forall (rejects update) hs.
Proof.
  unfold first_accepting, rejects. induction hs as [|h' hs IH]; [done|].
  simpl. destruct (Handler.check_update h' update) eqn:Hacc; [done|].
  intros Hfind. constructor; [done|by apply IH].
Qed.

(** A loop finds the first accepting handler of its list. *)
Lemma for_break_finds {R} (origin : Origin) (hs : list Handler.t) :
  ∃ called,
    for_break (R:=R) origin update hs self
    = mkRun (Normal (first_accepting update hs)) self (Consulted origin <$> called)
    ∧ called `prefix_of` hs.
Proof.
  unfold first_accepting. induction hs as [|h hs (called & IH & Hp)]; simpl.
  - exists []. done.
  - erewrite bind_normal by done. cbn [app].
    destruct (Handler.check_update h update).
    + exists [h]. split; [done|].
      by apply (prefix_cons h [] hs), prefix_nil.
    + exists (h :: called). rewrite IH. split; [done|]. by apply prefix_cons.
Qed.

(** The entry block: which entry points it calls and how it ends. *)
Lemma entry_block_finds :
  let scanned := if is_None S || allow_reentry self then entry_points self else [] in
  ∃ called,
    called `prefix_of` scanned
    ∧ entry_block S update self
      = mkRun (match first_accepting update scanned with
               | Some h => Normal (Some h)
               | None => if is_None S then Return false else Normal None
               end) self (Consulted EntryPoint <$> called).
Proof.
  cbv zeta. unfold entry_block.
  rewrite (bind_normal _ _ _ self self []) by done. cbn [app].
  destruct (is_None S || allow_reentry self) eqn:Hscan.
  - destruct (for_break_finds (R:=bool) EntryPoint (entry_points self))
      as (called & Hrun & Hp).
    exists called. split; [done|].
    erewrite bind_normal by exact Hrun.
    destruct (first_accepting update (entry_points self)) as [h|]; cbv beta iota.
    + cbn. by rewrite app_nil_r.
    + destruct (is_None S); cbn; by rewrite app_nil_r.
  - exists []. split; [done|].
    apply orb_false_iff in Hscan as [-> _]. done.
Qed.

(** The state block, entered in a state without a handler: which handlers
    it calls and how it ends. *)
Lemma state_block_finds :
  is_None S = false →
  ∃ called called',
    called `prefix_of` state_handlers self S
    ∧ called' `prefix_of` fallbacks self
    ∧ state_block S None update self
      = mkRun (match first_accepting update (state_handlers self S ++ fallbacks self) with
               | Some h => Normal (Some h)
               | None => Return false
               end) self
              ((Consulted StateHandler <$> called) ++ (Consulted Fallback <$> called')).
Proof.
  intros HS. unfold state_block.
  rewrite (bind_normal _ _ _ self self []) by done.
  rewrite HS. cbn [negb andb truthy app].
  rewrite first_accepting_app.
  destruct (for_break_finds (R:=bool) StateHandler (state_handlers self S))
    as (called & Hrun & Hp).
  unfold state_handlers in Hrun at 1.
  erewrite bind_normal by exact Hrun.
  destruct (first_accepting update (state_handlers self S)) as [h|]; cbv beta iota.
  - exists called, []. split_and!; [done|apply prefix_nil|]. done.
  - destruct (for_break_finds (R:=bool) Fallback (fallbacks self))
      as (called' & Hrun' & Hp').
    exists called, called'. split_and!; [done..|].
    erewrite bind_normal by exact Hrun'.
    destruct (first_accepting update (fallbacks self)) as [h|]; cbn;
      by rewrite app_nil_r.
Qed.

(** Selection takes the first accepting candidate, or returns [False]
    when there is none; the calls it makes go through the three
    collections in order. *)
Lemma select_and_record_finds :
  ∃ called0 called1 called2,
    called0 `prefix_of` (if is_None S || allow_reentry self
                         then entry_points self else [])
    ∧ (if is_None S then called1 = [] ∧ called2 = []
       else called1 `prefix_of` state_handlers self S
            ∧ called2 `prefix_of` fallbacks self)
    ∧ select_and_record key S update self
      = mkRun (Return (truthy (first_accepting update (candidates self S))))
              (match first_accepting update (candidates self S) with
               | Some h => with_selection self key (Some h)
               | None => self
               end)
              ((Consulted EntryPoint <$> called0)
                 ++ (Consulted StateHandler <$> called1)
                 ++ (Consulted Fallback <$> called2)).
Proof.
  unfold select_and_record, candidates. rewrite first_accepting_app.
  destruct entry_block_finds as (called0 & Hp0 & Hrun0).
  destruct (first_accepting update
              (if is_None S || allow_reentry self then entry_points self else []))
    as [h|].
  - exists called0, [], [].
    split_and!;
      [done|destruct (is_None S); split; (done || apply prefix_nil)|].
    rewrite (bind_normal _ _ _ _ _ _ Hrun0).
    rewrite (bind_normal _ _ _ _ _ _ (state_block_skipped _ _ _ h)).
    rewrite save_selection_run. cbn. by rewrite !app_nil_r.
  - destruct (is_None S) eqn:HS.
    + exists called0, [], []. split_and!; [done..|].
      rewrite (bind_return _ _ _ _ _ _ Hrun0). cbn. by rewrite app_nil_r.
    + destruct (state_block_finds HS) as (called1 & called2 & Hp1 & Hp2 & Hrun1).
      exists called0, called1, called2. split_and!; [done..|].
      rewrite (bind_normal _ _ _ _ _ _ Hrun0).
      destruct (first_accepting update (state_handlers self S ++ fallbacks self))
        as [h|].
      * rewrite (bind_normal _ _ _ _ _ _ Hrun1).
        rewrite save_selection_run. cbn. by rewrite !app_nil_r.
      * by rewrite (bind_return _ _ _ _ _ _ Hrun1).
Qed.

End FirstMatch.

(** ** The check phase as a whole *)

(** [check_update] on an update with an identity and a resolved state:
    result, instance and log. *)
Lemma check_update_finds (self : ConversationHandler) (update : Update)
    (key : Key) (S : value) :
  identity update = Some (Ok key) →
  current_state self key = Ok S →
  ∃ called0 called1 called2,
    called0 `prefix_of` (if is_None S || allow_reentry self
                         then entry_points self else [])
    ∧ (if is_None S then called1 = [] ∧ called2 = []
       else called1 `prefix_of` state_handlers self S
            ∧ called2 `prefix_of` fallbacks self)
    ∧ check_update self (AnUpdate update)
      = mkRun (Ok (truthy (first_accepting update (candidates self S))))
              (match first_accepting update (candidates self S) with
               | Some h => with_selection self key (Some h)
               | None => self
               end)
              (waiting_log self key ++ DebugSelecting key S
                 :: (Consulted EntryPoint <$> called0)
                 ++ (Consulted StateHandler <$> called1)
                 ++ (Consulted Fallback <$> called2)).
Proof.
  intros Hid HS.
  destruct (select_and_record_finds self key S update)
    as (called0 & called1 & called2 & Hp0 & Hp12 & Hrun).
  exists called0, called1, called2. split_and!; [done..|].
  rewrite (check_update_resolved _ _ _ _ Hid HS).
  unfold call. by rewrite Hrun.
Qed.

(** The key of an identity is a tuple. *)
Lemma identity_is_tuple (update : Update) (key : Key) :
  identity update = Some (Ok key) → key ≠ KNone.
Proof.
  unfold identity, conversation_key, id_of_user.
  destruct (sender_and_chat update) as [[[user|] [chat|]]|]; by intros [= <-].
Qed.

(** A check that returns [True]: where the update, the key and the
    handler come from. *)
Lemma check_update_true (self : ConversationHandler) (update : PyObject) :
  outcome (check_update self update) = Ok true →
  ∃ upd key S h,
    update = AnUpdate upd
    ∧ identity upd = Some (Ok key)
    ∧ current_state self key = Ok S
    ∧ first_accepting upd (candidates self S) = Some h
    ∧ after (check_update self update) = with_selection self key (Some h).
Proof.
  destruct update as [repr|update]; [done|].
  intros Htrue.
  destruct (identity update) as [[key|e]|] eqn:Hid.
  - destruct (current_state self key) as [S|e] eqn:HS.
    + destruct (check_update_finds _ _ _ _ Hid HS)
        as (called0 & called1 & called2 & _ & _ & Hrun).
      rewrite Hrun in Htrue |- *. cbn [outcome after] in *.
      destruct (first_accepting update (candidates self S)) as [h|] eqn:Hfind;
        [|done].
      by exists update, key, S, h.
    + by rewrite (check_update_resolution_raises _ _ _ _ Hid HS) in Htrue.
  - by rewrite (check_update_identity_raises _ _ _ Hid) in Htrue.
  - by rewrite (check_update_no_identity _ _ Hid) in Htrue.
Qed.

(** A handler found under a state is registered in the state table. *)
Lemma state_handlers_registered (self : ConversationHandler) (S : value)
    (h : Handler.t) :
  h ∈ state_handlers self S →
  ∃ state hs, (state, hs) ∈ states self ∧ h ∈ hs.
Proof.
  unfold state_handlers. induction (states self) as [|[k hs] d IH]; simpl.
  - by intros ?%elem_of_nil.
  - destruct (py_eq k S).
    + intros Hin. exists k, hs. split; [apply list_elem_of_here|done].
    + intros Hin. destruct (IH Hin) as (state & hs' & Hreg & Hh).
      exists state, hs'. split; [by apply list_elem_of_further|done].
Qed.

(** The candidates are handlers of the three collections. *)
Lemma candidates_registered (self : ConversationHandler) (S : value)
    (h : Handler.t) :
  h ∈ candidates self S →
  h ∈ entry_points self ∨ h ∈ fallbacks self
  ∨ ∃ state hs, (state, hs) ∈ states self ∧ h ∈ hs.
Proof.
  unfold candidates. rewrite elem_of_app. intros [Hin|Hin].
  - destruct (is_None S || allow_reentry self); [by left|].
    by apply elem_of_nil in Hin.
  - destruct (is_None S); [by apply elem_of_nil in Hin|].
    apply elem_of_app in Hin as [Hin|Hin]; [|by right; left].
    right; right. by apply (state_handlers_registered self S).
Qed.

(** Selection reads the configuration and the store only. *)
Lemma candidates_with_selection (self : ConversationHandler) (key : Key)
    (handler : option Handler.t) (S : value) :
  candidates (with_selection self key handler) S = candidates self S.
Proof. done. Qed.

Lemma current_state_with_selection (self : ConversationHandler) (key key' : Key)
    (handler : option Handler.t) :
  current_state (with_selection self key handler) key' = current_state self key'.
Proof. done. Qed.

(** X1: for an update with an identity and a resolved state, the check is
    a first match over the candidates of that state: it returns [True] and
    records the first candidate that accepts the update, or returns [False]
    and changes nothing when no candidate accepts. *)
Theorem selection_is_first_match (self : ConversationHandler) (update : Update)
    (key : Key) (S : value) :
  identity update = Some (Ok key) →
  current_state self key = Ok S →
  let r := check_update self (AnUpdate update) in
  match first_accepting update (candidates self S) with
  | Some h => outcome r = Ok true ∧ after r = with_selection self key (Some h)
  | None => outcome r = Ok false ∧ after r = self
  end.
Proof.
  intros Hid HS. cbv zeta.
  destruct (check_update_finds _ _ _ _ Hid HS) as (c0 & c1 & c2 & _ & _ & ->).
  by destruct (first_accepting update (candidates self S)).
Qed.

(** X2: whenever [check_update] returns [True], the handler it recorded
    accepted the update and is one of the entry points, of the fallbacks or
    of the handlers registered in the state table, and the key it recorded
    is the identity of the update. *)
Theorem successful_check_records_acceptor (self : ConversationHandler)
    (update : PyObject) :
  outcome (check_update self update) = Ok true →
  let self' := after (check_update self update) in
  ∃ upd h,
    update = AnUpdate upd
    ∧ current_handler self' = Some h
    ∧ Handler.check_update h upd = true
    ∧ (h ∈ entry_points self ∨ h ∈ fallbacks self
       ∨ ∃ state hs, (state, hs) ∈ states self ∧ h ∈ hs)
    ∧ identity upd = Some (Ok (current_conversation self')).
Proof.
  intros Htrue. cbv zeta.
  destruct (check_update_true _ _ Htrue)
    as (upd & key & S & h & -> & Hid & HS & Hfind & ->).
  destruct (first_accepting_Some _ _ _ Hfind) as [Hin Hacc].
  exists upd, h. split_and!; [done..|by eapply candidates_registered|done].
Qed.

(** X3: a check that does not return [True], whether it returns [False]
    or raises, leaves the whole instance as it was; in particular the
    handler and key recorded by an earlier check stay recorded. *)
Theorem declined_check_keeps_instance (self : ConversationHandler)
    (update : PyObject) :
  outcome (check_update self update) ≠ Ok true →
  after (check_update self update) = self.
Proof.
  intros Hnot.
  by destruct (check_update_effect self update) as [[? _]|[_ ?]].
Qed.

(** X4: checking the same update again gives the same result and leaves
    the instance as the first check left it. *)
Theorem check_update_repeatable (self : ConversationHandler) (update : PyObject) :
  let r := check_update self update in
  outcome (check_update (after r) update) = outcome r
  ∧ after (check_update (after r) update) = after r.
Proof.
  cbv zeta.
  destruct (check_update_effect self update) as [[Htrue _]|[_ Hsame]];
    [|rewrite Hsame; by split].
  destruct (check_update_true _ _ Htrue)
    as (upd & key & S & h & -> & Hid & HS & Hfind & ->).
  rewrite Htrue.
  destruct (check_update_finds (with_selection self key (Some h)) upd key S
              Hid HS) as (c0 & c1 & c2 & _ & _ & ->).
  rewrite candidates_with_selection, Hfind. done.
Qed.

(** The calls of a check are calls of the three collections in order. *)
Lemma consulted_in_order (c0 c1 c2 : list Handler.t) :
  consulted ((Consulted EntryPoint <$> c0) ++ (Consulted StateHandler <$> c1)
               ++ (Consulted Fallback <$> c2))
  = scan EntryPoint c0 ++ scan StateHandler c1 ++ scan Fallback c2.
Proof. by rewrite !consulted_app, !consulted_Consulted. Qed.

(** X5: the handlers a check calls are an initial segment of the entry
    points, then an initial segment of the handlers of the resolved
    state, then an initial segment of the fallbacks, each in declared
    order; nothing else is called. *)
Theorem calls_follow_the_collections (self : ConversationHandler)
    (update : Update) (key : Key) (S : value) :
  identity update = Some (Ok key) →
  current_state self key = Ok S →
  ∃ called0 called1 called2,
    called0 `prefix_of` entry_points self
    ∧ called1 `prefix_of` state_handlers self S
    ∧ called2 `prefix_of` fallbacks self
    ∧ consulted (emitted (check_update self (AnUpdate update)))
      = scan EntryPoint called0 ++ scan StateHandler called1
          ++ scan Fallback called2.
Proof.
  intros Hid HS.
  destruct (check_update_finds _ _ _ _ Hid HS)
    as (c0 & c1 & c2 & Hp0 & Hp12 & ->).
  exists c0, c1, c2. cbn [emitted].
  rewrite consulted_check_log, consulted_in_order.
  split_and!; [| | |done].
  - destruct (is_None S || allow_reentry self); [done|].
    apply prefix_nil_inv in Hp0 as ->. apply prefix_nil.
  - destruct (is_None S); [destruct Hp12 as [-> _]; apply prefix_nil|apply Hp12].
  - destruct (is_None S); [destruct Hp12 as [_ ->]; apply prefix_nil|apply Hp12].
Qed.

(** X6: without reentry, an identity in an active state never has an
    entry point called, whatever the outcome of the check. *)
Theorem no_reentry_skips_entry_points (self : ConversationHandler)
    (update : Update) (key : Key) (S : value) :
  allow_reentry self = false →
  identity update = Some (Ok key) →
  current_state self key = Ok S →
  S ≠ VNone →
  ∀ h, (EntryPoint, h) ∉ consulted (emitted (check_update self (AnUpdate update))).
Proof.
  intros Hre Hid HS HSn%is_None_false h.
  destruct (check_update_finds _ _ _ _ Hid HS)
    as (c0 & c1 & c2 & Hp0 & _ & ->).
  rewrite HSn, Hre in Hp0. apply prefix_nil_inv in Hp0 as ->.
  cbn [emitted]. rewrite consulted_check_log, consulted_in_order.
  unfold scan. cbn [fmap list_fmap app].
  rewrite elem_of_app, !list_elem_of_fmap.
  intros [(h' & [=] & _)|(h' & [=] & _)].
Qed.

(** X7: a stored promise that completed with [None] puts its identity in
    the same position as an identity without entry: only entry points
    are called, and when they all reject the check returns [False]. *)
Theorem resolved_None_is_no_state (self : ConversationHandler)
    (update : Update) (key : Key) (ident : nat) :
  identity update = Some (Ok key) →
  conversations self !! key = Some (VPromise ident (Ok VNone)) →
  let r := check_update self (AnUpdate update) in
  (∃ called, called `prefix_of` entry_points self
             ∧ consulted (emitted r) = scan EntryPoint called)
  ∧ (Forall (rejects update) (entry_points self) →
     outcome r = Ok false ∧ after r = self).
Proof.
  intros Hid Hstored. cbv zeta.
  assert (current_state self key = Ok VNone) as HS.
  { unfold current_state, conversations_get. by rewrite Hstored. }
  split.
  - destruct (check_update_finds _ _ _ _ Hid HS)
      as (c0 & c1 & c2 & Hp0 & [-> ->] & ->).
    exists c0. split; [done|]. cbn [emitted].
    rewrite consulted_check_log, consulted_in_order.
    unfold scan at 2 3. cbn. by rewrite app_nil_r.
  - intros Hrej.
    pose proof (check_update_selects _ _ _ _ _ _ _ Hid HS
                  (select_no_state_rejected self key VNone update eq_refl Hrej))
      as (Hout & Hafter & _).
    done.
Qed.

(** ** The commit phase as a whole *)

Section CommitCases.

Variables (self : ConversationHandler) (update : Update) (dispatcher : Dispatcher).

(** An exception of the selected handler leaves the call at once. *)
Lemma handle_update_handler_raises (h : Handler.t) (e : exn) :
  current_handler self = Some h →
  Handler.handle_update h update dispatcher = Raise e →
  handle_update self update dispatcher = mkRun (Raise e) self [].
Proof.
  intros Hsel Hout. unfold handle_update, call, handle_update_body.
  erewrite bind_raised; [done|].
  unfold call_current_handler.
  rewrite (bind_normal _ _ _ self self []) by done.
  by rewrite Hsel, Hout.
Qed.

(** An outcome [None] leaves the instance alone. *)
Lemma handle_update_None (h : Handler.t) (new_state : value) :
  current_handler self = Some h →
  Handler.handle_update h update dispatcher = Ok new_state →
  py_eq new_state END = false →
  is_None new_state = true →
  handle_update self update dispatcher = mkRun (Ok tt) self [].
Proof.
  intros Hsel Hout Hend Hnone. unfold handle_update, call, handle_update_body.
  rewrite (bind_normal _ _ _ _ _ _
             (call_current_handler_run self update dispatcher h new_state Hsel Hout)).
  rewrite (bind_normal _ _ _ self self []) by done.
  by rewrite Hend, Hnone.
Qed.

(** The three things a commit can do to the instance: nothing, delete the
    entry of the recorded key, or set it to a value that is neither [None]
    nor [END]. *)
Lemma handle_update_cases :
  let r := handle_update self update dispatcher in
  let K := current_conversation self in
  after r = self
  ∨ (current_handler self ≠ None
     ∧ after r = with_conversations self (delete K (conversations self)))
  ∨ (current_handler self ≠ None
     ∧ ∃ v, is_None v = false ∧ py_eq v END = false
            ∧ after r = with_conversations self (<[K := v]> (conversations self))).
Proof.
  cbv zeta. destruct (current_handler self) as [h|] eqn:Hsel.
  - destruct (Handler.handle_update h update dispatcher) as [v|e] eqn:Hout.
    + destruct (py_eq v END) eqn:Hend.
      * destruct (conversations self !! current_conversation self) as [old|]
          eqn:Hstored.
        -- right; left. split; [done|].
           by rewrite (handle_update_END_stored self update dispatcher h v
                         Hsel Hout old Hend Hstored).
        -- left.
           by rewrite (handle_update_END_absent self update dispatcher h v
                         Hsel Hout Hend Hstored).
      * destruct (is_None v) eqn:Hnone.
        -- left. by rewrite (handle_update_None h v Hsel Hout Hend Hnone).
        -- right; right. split; [done|]. exists v. split_and!; [done..|].
           by rewrite (handle_update_new_state self update dispatcher h v
                         Hsel Hout Hend Hnone).
    + left. by rewrite (handle_update_handler_raises h e Hsel Hout).
  - left. by rewrite handle_update_unselected.
Qed.

End CommitCases.

(** X8: a commit changes at most the entry of the recorded key: every
    other entry of the store, the recorded key and the recorded handler
    are what they were, however the call ends. *)
Theorem handle_update_touches_one_entry (self : ConversationHandler)
    (update : Update) (dispatcher : Dispatcher) :
  let self' := after (handle_update self update dispatcher) in
  (∀ key, key ≠ current_conversation self →
          conversations self' !! key = conversations self !! key)
  ∧ current_conversation self' = current_conversation self
  ∧ current_handler self' = current_handler self.
Proof.
  cbv zeta.
  destruct (handle_update_cases self update dispatcher)
    as [->|[[_ ->]|[_ (v & _ & _ & ->)]]]; (split; [|done]); intros key Hkey;
    cbn [conversations with_conversations].
  - done.
  - by rewrite lookup_delete_ne.
  - by rewrite lookup_insert_ne.
Qed.

(** X9: when the callback of the selected handler raises, the exception
    leaves [handle_update] and the instance, its store included, is
    unchanged. *)
Theorem handler_error_leaves_instance (self : ConversationHandler)
    (h : Handler.t) (update : Update) (dispatcher : Dispatcher) (e : exn) :
  current_handler self = Some h →
  Handler.handle_update h update dispatcher = Raise e →
  handle_update self update dispatcher = mkRun (Raise e) self [].
Proof.
  intros Hsel Hout.
  destruct (handle_update_cases self update dispatcher) as [Hsame|Hchanged].
  - rewrite <- Hsame at 2.
    by rewrite (handle_update_handler_raises self update dispatcher h e Hsel Hout).
  - by rewrite (handle_update_handler_raises self update dispatcher h e Hsel Hout).
Qed.

Section CheckThenCommit.

Variables (self : ConversationHandler) (update : Update) (key : Key)
          (h : Handler.t) (dispatcher : Dispatcher) (v : value).

Hypothesis Hidentity : identity update = Some (Ok key).
Hypothesis Hchecked : outcome (check_update self (AnUpdate update)) = Ok true.
Hypothesis Hhandler :
  current_handler (after (check_update self (AnUpdate update))) = Some h.
Hypothesis Houtcome : Handler.handle_update h update dispatcher = Ok v.

(** After a successful check the selection is [key] and [h]. *)
Lemma checked_instance :
  after (check_update self (AnUpdate update)) = with_selection self key (Some h).
Proof.
  destruct (check_update_true _ _ Hchecked)
    as (upd & key' & S & h' & [= <-] & Hid & _ & _ & Hafter).
  rewrite Hafter in Hhandler |- *. cbn in Hhandler.
  rewrite Hidentity in Hid. by simplify_eq.
Qed.

(** X10: a check followed by the commit of an outcome that is neither
    [None] nor [END] stores that outcome under the identity of the update,
    and the next check for this identity resolves to it: to the value
    itself, or, when the outcome is a promise, to what the promise
    completes with, whatever that is. *)
Theorem committed_state_is_next_state :
  py_eq v END = false →
  is_None v = false →
  let committed := handle_update (after (check_update self (AnUpdate update)))
                     update dispatcher in
  outcome committed = Ok tt
  ∧ conversations (after committed) = <[key := v]> (conversations self)
  ∧ current_state (after committed) key
    = (if is_Promise v then result v else Ok v).
Proof.
  intros Hend Hnone. cbv zeta. rewrite checked_instance.
  rewrite (handle_update_new_state (with_selection self key (Some h))
             update dispatcher h v eq_refl Houtcome Hend Hnone).
  split_and!; [done..|].
  unfold current_state, conversations_get. cbn.
  by rewrite lookup_insert_eq.
Qed.

(** X11: a check followed by the commit of an outcome equal to [END],
    for an identity that has an entry, removes that entry and no other;
    the next check for this identity starts from no state. *)
Theorem END_removes_stored_entry (old : value) :
  py_eq v END = true →
  conversations self !! key = Some old →
  let committed := handle_update (after (check_update self (AnUpdate update)))
                     update dispatcher in
  outcome committed = Ok tt
  ∧ conversations (after committed) = delete key (conversations self)
  ∧ current_state (after committed) key = Ok VNone.
Proof.
  intros Hend Hstored. cbv zeta. rewrite checked_instance.
  rewrite (handle_update_END_stored (with_selection self key (Some h))
             update dispatcher h v eq_refl Houtcome old Hend Hstored).
  split_and!; [done..|].
  unfold current_state, conversations_get. cbn.
  by rewrite lookup_delete_eq.
Qed.

End CheckThenCommit.

(** ** Whole runs *)

(** One call keeps the configuration. *)
Lemma step_same_configuration (self : ConversationHandler) (c : Call) :
  same_configuration self (step self c).
Proof.
  destruct c as [update|update dispatcher]; cbn [step].
  - by destruct (check_update_effect self update)
      as [[_ (key & h & ->)]|[_ ->]].
  - by destruct (handle_update_cases self update dispatcher)
      as [->|[[_ ->]|[_ (v & _ & _ & ->)]]].
Qed.

(** One call keeps the store to active states under tuple keys. *)
Lemma step_active_states_only (self : ConversationHandler) (c : Call) :
  active_states_only self ∧ selection_has_key self →
  active_states_only (step self c) ∧ selection_has_key (step self c).
Proof.
  intros [[Hnokey Hvalues] Hsel].
  destruct c as [update|update dispatcher]; cbn [step].
  - destruct (check_update_effect self update) as [[Htrue _]|[_ ->]]; [|done].
    destruct (check_update_true _ _ Htrue)
      as (upd & key & S & h & _ & Hid & _ & _ & ->).
    split; [done|]. intros _. by apply (identity_is_tuple upd).
  - destruct (handle_update_cases self update dispatcher)
      as [->|[[Hh ->]|[Hh (v & Hnone & Hend & ->)]]]; [done| |].
    + split; [|done]. split; cbn [conversations with_conversations].
      * apply lookup_delete_None. by right.
      * intros key v [_ Hv]%lookup_delete_Some. by apply (Hvalues key).
    + split; [|done]. split; cbn [conversations with_conversations].
      * rewrite lookup_insert_ne; [done|]. by apply Hsel.
      * intros key v' [[_ <-]|[_ Hv]]%lookup_insert_Some; [done|].
        by apply (Hvalues key).
Qed.

(** X12: whatever calls are made on an instance, its constructor
    arguments (entry points, state table, fallbacks, reentry flag) stay
    the same. *)
Theorem configuration_never_changes (self : ConversationHandler)
    (calls : list Call) :
  same_configuration self (run_calls self calls).
Proof.
  unfold run_calls. revert self.
  induction calls as [|c calls IH]; intros self; [done|].
  cbn [foldl].
  destruct (step_same_configuration self c) as (H1 & H2 & H3 & H4).
  destruct (IH (step self c)) as (H1' & H2' & H3' & H4').
  unfold same_configuration. by rewrite H1', H2', H3', H4'.
Qed.

(** X13: on an instance built by the constructor, whatever calls are made
    afterwards, the store never has an entry under the key [None] and never
    holds [None] or a value equal to [END] as a state. *)
Theorem store_holds_active_states_only
    (eps : list Handler.t) (sts : list (value * list Handler.t))
    (fbs : list Handler.t) (reentry : bool) (calls : list Call) :
  active_states_only (run_calls (__init__ eps sts fbs reentry) calls).
Proof.
  assert (∀ self, active_states_only self ∧ selection_has_key self →
                  active_states_only (run_calls self calls)) as Hrun.
  { unfold run_calls. induction calls as [|c calls IH]; intros self Hinv.
    - apply Hinv.
    - cbn [foldl]. by apply IH, step_active_states_only. }
  apply Hrun. split; [split|].
  - apply lookup_empty.
  - intros key v. cbn. by rewrite lookup_empty.
  - by intros Hsel.
Qed.

(** X14: [check_update] raises only through an absent sender or a failed
    promise: for an update whose sender is present, on a store without
    failed promise, it returns [True] or [False]. *)
Theorem check_update_returns (self : ConversationHandler) (update : Update) :
  (∀ user chat, sender_and_chat update = Some (user, chat) → is_Some user) →
  (∀ key ident e, conversations self !! key ≠ Some (VPromise ident (Raise e))) →
  ∃ b, outcome (check_update self (AnUpdate update)) = Ok b.
Proof.
  intros Hsender Hstore.
  destruct (outcome (check_update self (AnUpdate update))) as [b|e] eqn:Hout;
    [by exists b|].
  exfalso.
  destruct (check_update_effect self (AnUpdate update)) as [[Htrue _]|_];
    [by rewrite Hout in Htrue|].
  destruct (identity update) as [[key|e']|] eqn:Hid.
  - destruct (current_state self key) as [S|e'] eqn:HS.
    + destruct (check_update_finds _ _ _ _ Hid HS) as (? & ? & ? & _ & _ & Hrun).
      by rewrite Hrun in Hout.
    + unfold current_state, conversations_get in HS.
      destruct (conversations self !! key) as [[| | |ident [w|e'']]|] eqn:Hstored;
        try done.
      by apply (Hstore key ident e'').
  - unfold identity in Hid.
    destruct (sender_and_chat update) as [[user chat]|] eqn:Hshape; [|done].
    destruct (Hsender user chat eq_refl) as [u ->].
    by destruct chat.
  - by rewrite (check_update_no_identity _ _ Hid) in Hout.
Qed.

(** X15: a check followed by a commit for one identity, whatever the
    handler reports or raises, leaves the entry of every other identity
    untouched: the state another identity resolves to is what it was. *)
Theorem other_identities_keep_their_state (self : ConversationHandler)
    (update : Update) (key other : Key) (dispatcher : Dispatcher) :
  identity update = Some (Ok key) →
  outcome (check_update self (AnUpdate update)) = Ok true →
  other ≠ key →
  let committed := handle_update (after (check_update self (AnUpdate update)))
                     update dispatcher in
  conversations (after committed) !! other = conversations self !! other
  ∧ current_state (after committed) other = current_state self other.
Proof.
  intros Hid Htrue Hother. cbv zeta.
  destruct (check_update_true _ _ Htrue)
    as (upd & key' & S & h & [= <-] & Hid' & _ & _ & ->).
  rewrite Hid in Hid'. injection Hid' as <-.
  assert (conversations
            (after (handle_update (with_selection self key (Some h))
                      update dispatcher)) !! other
          = conversations self !! other) as Hsame.
  { destruct (handle_update_cases (with_selection self key (Some h))
                update dispatcher)
      as [->|[[_ ->]|[_ (v & _ & _ & ->)]]];
      cbn [conversations with_conversations with_selection current_conversation].
    - done.
    - by rewrite lookup_delete_ne.
    - by rewrite lookup_insert_ne. }
  split; [done|].
  unfold current_state, conversations_get. by rewrite Hsame.
Qed.

(** ** Concrete runs of the further properties *)

Lemma selection_is_first_match_witness :
  let self := Fixtures.talking false [Fixtures.always END] in
  let r := check_update self (AnUpdate Fixtures.text_update) in
  identity Fixtures.text_update = Some (Ok Fixtures.in_chat)
  ∧ current_state self Fixtures.in_chat = Ok Fixtures.AWAITING_NAME
  ∧ first_accepting Fixtures.text_update (candidates self Fixtures.AWAITING_NAME)
    = Some (Fixtures.always Fixtures.AWAITING_AGE)
  ∧ outcome r = Ok true
  ∧ after r = with_selection self Fixtures.in_chat
                (Some (Fixtures.always Fixtures.AWAITING_AGE)).
Proof.
  cbv zeta.
  assert (current_state (Fixtures.talking false [Fixtures.always END])
            Fixtures.in_chat = Ok Fixtures.AWAITING_NAME) as HS
    by (by vm_compute).
  split_and!; [reflexivity|exact HS|reflexivity|..];
    apply (selection_is_first_match
             (Fixtures.talking false [Fixtures.always END])
             Fixtures.text_update Fixtures.in_chat Fixtures.AWAITING_NAME
             eq_refl HS).
Defined.

Lemma successful_check_records_acceptor_witness :
  outcome (check_update Fixtures.starting (AnUpdate Fixtures.text_update)) = Ok true
  ∧ ∃ upd h,
      AnUpdate Fixtures.text_update = AnUpdate upd
      ∧ current_handler
          (after (check_update Fixtures.starting (AnUpdate Fixtures.text_update)))
        = Some h
      ∧ Handler.check_update h upd = true.
Proof.
  assert (outcome (check_update Fixtures.starting (AnUpdate Fixtures.text_update))
          = Ok true) as Htrue by (by vm_compute).
  split; [exact Htrue|].
  destruct (successful_check_records_acceptor Fixtures.starting
              (AnUpdate Fixtures.text_update) Htrue)
    as (upd & h & Hupd & Hh & Hacc & _).
  exists upd, h. split_and!; [exact Hupd|exact Hh|exact Hacc].
Defined.

Lemma declined_check_keeps_instance_witness :
  outcome (check_update (Scenarios.chosen Scenarios.failing)
             (AnUpdate Fixtures.channel_update)) ≠ Ok true
  ∧ current_handler
      (after (check_update (Scenarios.chosen Scenarios.failing)
                (AnUpdate Fixtures.channel_update)))
    = Some Scenarios.failing.
Proof.
  assert (outcome (check_update (Scenarios.chosen Scenarios.failing)
                     (AnUpdate Fixtures.channel_update)) ≠ Ok true) as Hnot
    by (vm_compute; discriminate).
  split; [exact Hnot|].
  exact (f_equal current_handler
           (declined_check_keeps_instance (Scenarios.chosen Scenarios.failing)
              (AnUpdate Fixtures.channel_update) Hnot)).
Defined.

Lemma calls_follow_the_collections_witness :
  let self := Fixtures.talking true [Fixtures.always END] in
  identity Fixtures.query_update = Some (Ok Fixtures.no_chat)
  ∧ current_state self Fixtures.no_chat = Ok Fixtures.AWAITING_NAME
  ∧ ∃ called0 called1 called2,
      called0 `prefix_of` entry_points self
      ∧ called1 `prefix_of` state_handlers self Fixtures.AWAITING_NAME
      ∧ called2 `prefix_of` fallbacks self
      ∧ consulted (emitted (check_update self (AnUpdate Fixtures.query_update)))
        = scan EntryPoint called0 ++ scan StateHandler called1
            ++ scan Fallback called2.
Proof.
  cbv zeta.
  assert (current_state (Fixtures.talking true [Fixtures.always END])
            Fixtures.no_chat = Ok Fixtures.AWAITING_NAME) as HS
    by (by vm_compute).
  split_and!; [reflexivity|exact HS|].
  exact (calls_follow_the_collections
           (Fixtures.talking true [Fixtures.always END])
           Fixtures.query_update Fixtures.no_chat Fixtures.AWAITING_NAME
           eq_refl HS).
Defined.

Lemma no_reentry_skips_entry_points_witness :
  let self := Fixtures.talking false [Fixtures.always END] in
  allow_reentry self = false
  ∧ current_state self Fixtures.in_chat = Ok Fixtures.AWAITING_NAME
  ∧ accepts Fixtures.text_update (Fixtures.on_message Fixtures.AWAITING_NAME)
  ∧ (EntryPoint, Fixtures.on_message Fixtures.AWAITING_NAME)
    ∉ consulted (emitted (check_update self (AnUpdate Fixtures.text_update))).
Proof.
  cbv zeta.
  assert (current_state (Fixtures.talking false [Fixtures.always END])
            Fixtures.in_chat = Ok Fixtures.AWAITING_NAME) as HS
    by (by vm_compute).
  split_and!; [reflexivity|exact HS|reflexivity|].
  apply (no_reentry_skips_entry_points
           (Fixtures.talking false [Fixtures.always END])
           Fixtures.text_update Fixtures.in_chat Fixtures.AWAITING_NAME
           eq_refl eq_refl HS); discriminate.
Defined.

Lemma resolved_None_is_no_state_witness :
  conversations Scenarios.forgotten !! Fixtures.in_chat
  = Some (VPromise 2 (Ok VNone))
  ∧ ∃ called,
      called `prefix_of` entry_points Scenarios.forgotten
      ∧ consulted (emitted (check_update Scenarios.forgotten
                              (AnUpdate Fixtures.text_update)))
        = scan EntryPoint called.
Proof.
  assert (conversations Scenarios.forgotten !! Fixtures.in_chat
          = Some (VPromise 2 (Ok VNone))) as Hstored by (by vm_compute).
  split; [exact Hstored|].
  exact (proj1 (resolved_None_is_no_state Scenarios.forgotten
                  Fixtures.text_update Fixtures.in_chat 2 eq_refl Hstored)).
Defined.

Lemma handle_update_touches_one_entry_witness :
  Fixtures.no_chat ≠ current_conversation
                       (Scenarios.chosen (Fixtures.always Fixtures.AWAITING_AGE))
  ∧ conversations
      (after (handle_update
                (Scenarios.chosen (Fixtures.always Fixtures.AWAITING_AGE))
                Fixtures.text_update Fixtures.engine)) !! Fixtures.no_chat
    = conversations (Scenarios.chosen (Fixtures.always Fixtures.AWAITING_AGE))
        !! Fixtures.no_chat.
Proof.
  assert (Fixtures.no_chat
          ≠ current_conversation
              (Scenarios.chosen (Fixtures.always Fixtures.AWAITING_AGE))) as Hne
    by discriminate.
  split; [exact Hne|].
  exact (proj1 (handle_update_touches_one_entry
                  (Scenarios.chosen (Fixtures.always Fixtures.AWAITING_AGE))
                  Fixtures.text_update Fixtures.engine)
           Fixtures.no_chat Hne).
Defined.

Lemma handler_error_leaves_instance_witness :
  current_handler (Scenarios.chosen Scenarios.failing) = Some Scenarios.failing
  ∧ handle_update (Scenarios.chosen Scenarios.failing)
      Fixtures.text_update Fixtures.engine
    = mkRun (Raise (CollaboratorError "callback"))
            (Scenarios.chosen Scenarios.failing) [].
Proof.
  split; [reflexivity|].
  exact (handler_error_leaves_instance (Scenarios.chosen Scenarios.failing)
           Scenarios.failing Fixtures.text_update Fixtures.engine
           (CollaboratorError "callback") eq_refl eq_refl).
Defined.

Lemma committed_state_is_next_state_witness :
  let self := Fixtures.talking false [Fixtures.always END] in
  let checked := check_update self (AnUpdate Fixtures.text_update) in
  let committed := handle_update (after checked) Fixtures.text_update
                     Fixtures.engine in
  outcome checked = Ok true
  ∧ current_handler (after checked) = Some (Fixtures.always Fixtures.AWAITING_AGE)
  ∧ conversations (after committed)
    = <[Fixtures.in_chat := Fixtures.AWAITING_AGE]> (conversations self)
  ∧ current_state (after committed) Fixtures.in_chat = Ok Fixtures.AWAITING_AGE.
Proof.
  cbv zeta.
  assert (outcome (check_update (Fixtures.talking false [Fixtures.always END])
                     (AnUpdate Fixtures.text_update)) = Ok true) as Htrue
    by (by vm_compute).
  assert (current_handler
            (after (check_update (Fixtures.talking false [Fixtures.always END])
                      (AnUpdate Fixtures.text_update)))
          = Some (Fixtures.always Fixtures.AWAITING_AGE)) as Hh
    by (by vm_compute).
  pose proof (committed_state_is_next_state
                (Fixtures.talking false [Fixtures.always END])
                Fixtures.text_update Fixtures.in_chat
                (Fixtures.always Fixtures.AWAITING_AGE) Fixtures.engine
                Fixtures.AWAITING_AGE eq_refl Htrue Hh eq_refl eq_refl eq_refl)
    as (_ & Hstore & Hstate).
  split_and!; [exact Htrue|exact Hh|exact Hstore|exact Hstate].
Defined.

Lemma END_removes_stored_entry_witness :
  let self := Fixtures.aging [Fixtures.always END] in
  let checked := check_update self (AnUpdate Fixtures.text_update) in
  let committed := handle_update (after checked) Fixtures.text_update
                     Fixtures.engine in
  outcome checked = Ok true
  ∧ current_handler (after checked) = Some (Fixtures.always END)
  ∧ conversations self !! Fixtures.in_chat = Some Fixtures.AWAITING_AGE
  ∧ outcome committed = Ok tt
  ∧ conversations (after committed) = delete Fixtures.in_chat (conversations self)
  ∧ current_state (after committed) Fixtures.in_chat = Ok VNone.
Proof.
  cbv zeta.
  assert (outcome (check_update (Fixtures.aging [Fixtures.always END])
                     (AnUpdate Fixtures.text_update)) = Ok true) as Htrue
    by (by vm_compute).
  assert (current_handler
            (after (check_update (Fixtures.aging [Fixtures.always END])
                      (AnUpdate Fixtures.text_update)))
          = Some (Fixtures.always END)) as Hh
    by (by vm_compute).
  assert (conversations (Fixtures.aging [Fixtures.always END]) !! Fixtures.in_chat
          = Some Fixtures.AWAITING_AGE) as Hstored
    by (by vm_compute).
  pose proof (END_removes_stored_entry
                (Fixtures.aging [Fixtures.always END])
                Fixtures.text_update Fixtures.in_chat
                (Fixtures.always END) Fixtures.engine END
                eq_refl Htrue Hh eq_refl Fixtures.AWAITING_AGE eq_refl Hstored)
    as (Hout & Hstore & Hstate).
  split_and!;
    [exact Htrue|exact Hh|exact Hstored|exact Hout|exact Hstore|exact Hstate].
Defined.

Lemma check_update_returns_witness :
  (∀ user chat, sender_and_chat Fixtures.text_update = Some (user, chat) →
                is_Some user)
  ∧ (∀ key ident e,
        conversations (Fixtures.talking true []) !! key
        ≠ Some (VPromise ident (Raise e)))
  ∧ ∃ b, outcome (check_update (Fixtures.talking true [])
                    (AnUpdate Fixtures.text_update)) = Ok b.
Proof.
  assert (∀ user chat, sender_and_chat Fixtures.text_update = Some (user, chat) →
                       is_Some user) as Hsender.
  { intros user chat [= <- _]. by eexists. }
  assert (∀ key ident e,
             conversations (Fixtures.talking true []) !! key
             ≠ Some (VPromise ident (Raise e))) as Hstore.
  { intros key ident e. cbn [conversations Fixtures.talking].
    by intros [[_ [=]]|[_ [_ [=]]%lookup_singleton_Some]]%lookup_insert_Some. }
  split_and!; [exact Hsender|exact Hstore|].
  exact (check_update_returns (Fixtures.talking true []) Fixtures.text_update
           Hsender Hstore).
Defined.

Lemma other_identities_keep_their_state_witness :
  let self := Fixtures.talking false [Fixtures.always END] in
  let checked := check_update self (AnUpdate Fixtures.text_update) in
  let committed := handle_update (after checked) Fixtures.text_update
                     Fixtures.engine in
  identity Fixtures.text_update = Some (Ok Fixtures.in_chat)
  ∧ outcome checked = Ok true
  ∧ Fixtures.no_chat ≠ Fixtures.in_chat
  ∧ conversations (after committed) !! Fixtures.no_chat
    = conversations self !! Fixtures.no_chat
  ∧ current_state (after committed) Fixtures.no_chat
    = current_state self Fixtures.no_chat.
Proof.
  cbv zeta.
  assert (outcome (check_update (Fixtures.talking false [Fixtures.always END])
                     (AnUpdate Fixtures.text_update)) = Ok true) as Htrue
    by (by vm_compute).
  assert (Fixtures.no_chat ≠ Fixtures.in_chat) as Hne by discriminate.
  pose proof (other_identities_keep_their_state
                (Fixtures.talking false [Fixtures.always END])
                Fixtures.text_update Fixtures.in_chat Fixtures.no_chat
                Fixtures.engine eq_refl Htrue Hne)
    as (Hstore & Hstate).
  split_and!; [reflexivity|exact Htrue|exact Hne|exact Hstore|exact Hstate].
Defined.
